(** * The calculator reducer of [src/App.tsx]

    A shallow embedding of [calculatorReducer], [calculate] and
    [initialState], together with the two JavaScript built-ins the evaluator
    relies on: [parseFloat] and [Number.prototype.toString], over IEEE 754
    binary64 values.

    Conventions.
    - A JavaScript string is a [string]; one [ascii] stands for one UTF-16
      code unit, so the strings covered are those whose code units lie in
      U+0000..U+00FF.  The operator symbols of the program are in that
      range: the multiplication sign is U+00D7 and the division sign is
      U+00F7.  [length] is therefore JavaScript's [.length].
    - A JavaScript number is a [spec_float] at precision 53 and maximal
      exponent 1024, with the arithmetic of [SpecFloat] (round to nearest,
      ties to even).
    - [parseFloat] rounds the exact decimal value of the literal, and
      [toString] prints the shortest decimal that reads back as the same
      number, taking the closest one when several have that length: what
      ECMA-262 recommends and what the engines running this program do. *)

From Stdlib Require Import ZArith String Ascii List Bool Lia SpecFloat.
From Stdlib Require Import DecimalString.
Import ListNotations.

Local Open Scope string_scope.
Local Open Scope Z_scope.

(** ** Strings *)

Module JSString.

(** [s.includes(c)] for a one-character needle. *)
Fixpoint includes (s : string) (c : ascii) : bool :=
  match s with
  | EmptyString => false
  | String a t => Ascii.eqb a c || includes t c
  end.

(** [s.slice(0, -1)]: the end index is [max (length s - 1) 0]. *)
Definition slice_0_m1 (s : string) : string :=
  substring 0 (String.length s - 1) s.

(** [s.startsWith(p)]. *)
Fixpoint starts_with (s p : string) : bool :=
  match p with
  | EmptyString => true
  | String a p' =>
      match s with
      | EmptyString => false
      | String b s' => Ascii.eqb b a && starts_with s' p'
      end
  end.

(** [n] copies of the character [c]. *)
Fixpoint repeat (c : ascii) (n : nat) : string :=
  match n with
  | O => EmptyString
  | S n' => String c (repeat c n')
  end.

Definition is_digit (c : ascii) : bool :=
  (48 <=? Z.of_nat (nat_of_ascii c)) && (Z.of_nat (nat_of_ascii c) <=? 57).

Fixpoint all_digits (s : string) : bool :=
  match s with
  | EmptyString => true
  | String c t => is_digit c && all_digits t
  end.

Definition digit_value (c : ascii) : Z := Z.of_nat (nat_of_ascii c) - 48.

Definition digit_char (d : Z) : ascii := ascii_of_nat (Z.to_nat (48 + d)).

(** The longest prefix of decimal digits, and what follows it. *)
Fixpoint span_digits (s : string) : string * string :=
  match s with
  | EmptyString => (EmptyString, EmptyString)
  | String c t =>
      if is_digit c
      then let (d, r) := span_digits t in (String c d, r)
      else (EmptyString, s)
  end.

(** The value of a string of decimal digits, most significant first. *)
Fixpoint digits_value (acc : Z) (ds : string) : Z :=
  match ds with
  | EmptyString => acc
  | String c t => digits_value (acc * 10 + digit_value c) t
  end.

(** The WhiteSpace and LineTerminator code units below U+0100. *)
Definition is_white_space (c : ascii) : bool :=
  match N_of_ascii c with
  | 9%N | 10%N | 11%N | 12%N | 13%N | 32%N | 160%N => true
  | _ => false
  end.

Fixpoint trim_start (s : string) : string :=
  match s with
  | EmptyString => EmptyString
  | String c t => if is_white_space c then trim_start t else s
  end.

End JSString.

(** ** Numbers *)

Module JSNumber.
Import JSString.

Definition prec : Z := 53.
Definition emax : Z := 1024.

Definition number : Type := spec_float.

Definition NaN : number := S754_nan.

Definition isNaN (x : number) : bool :=
  match x with S754_nan => true | _ => false end.

Definition add : number -> number -> number := SFadd prec emax.
Definition sub : number -> number -> number := SFsub prec emax.
Definition mul : number -> number -> number := SFmul prec emax.
Definition div : number -> number -> number := SFdiv prec emax.

(** [x === 0], true of both zeros. *)
Definition is_zero (x : number) : bool := SFeqb x (S754_zero false).

(** *** Reading a decimal *)

(** The number nearest to [m * 10 ^ e], for [m > 0]. *)
Definition round_decimal (m : positive) (e : Z) : number :=
  if 0 <=? e
  then binary_normalize prec emax (Zpos m * 10 ^ e) 0 false
  else
    let '(q, e', l) :=
      SFdiv_core_binary prec emax (Zpos m) 0 (10 ^ (- e)) 0 in
    binary_round_aux prec emax false q e' l.

Definition scan_sign (s : string) : bool * string :=
  match s with
  | String c t =>
      if Ascii.eqb c "-" then (true, t)
      else if Ascii.eqb c "+" then (false, t)
      else (false, s)
  | EmptyString => (false, s)
  end.

(** ExponentPart, when one is there: its value and what follows it. *)
Definition scan_exponent (s : string) : Z * string :=
  match s with
  | String c t =>
      if Ascii.eqb c "e" || Ascii.eqb c "E"
      then
        let (neg, t') := scan_sign t in
        let (ds, r) := span_digits t' in
        match ds with
        | EmptyString => (0, s)
        | _ => ((if neg then - digits_value 0 ds else digits_value 0 ds), r)
        end
      else (0, s)
  | EmptyString => (0, s)
  end.

Inductive scanned : Type :=
| ScanNone
| ScanInfinity (neg : bool) (rest : string)
| ScanDecimal (neg : bool) (ip fp : string) (ex : Z) (rest : string).

(** The point and the fraction digits after the integer digits [ip],
    when they are there: a lone point counts only after a digit. *)
Definition scan_fraction (ip r1 : string) : string * string :=
  match r1 with
  | String c t =>
      if Ascii.eqb c "."
      then
        let (fp, r) := span_digits t in
        match ip, fp with
        | EmptyString, EmptyString => (EmptyString, r1)
        | _, _ => (fp, r)
        end
      else (EmptyString, r1)
  | EmptyString => (EmptyString, r1)
  end.

(** The longest prefix of [s1] that is a StrUnsignedDecimalLiteral:
    [Infinity], or digits with an optional point and fraction (one of
    the two digit runs may be empty, not both) and an optional
    exponent. *)
Definition scan_unsigned (neg : bool) (s1 : string) : scanned :=
  if starts_with s1 "Infinity"
  then ScanInfinity neg (substring 8 (String.length s1 - 8) s1)
  else
    let (ip, r1) := span_digits s1 in
    let (fp, r2) := scan_fraction ip r1 in
    match ip, fp with
    | EmptyString, EmptyString => ScanNone
    | _, _ =>
        let (ex, r3) := scan_exponent r2 in
        ScanDecimal neg ip fp ex r3
    end.

(** The longest prefix of [s] that is a StrDecimalLiteral. *)
Definition scan_StrDecimalLiteral (s : string) : scanned :=
  let (neg, s1) := scan_sign s in
  scan_unsigned neg s1.

(** What may follow the digits of a literal: nothing, or an exponent
    with its sign. *)
Definition exponent_part (r : string) : Prop :=
  r = EmptyString
  \/ exists sg ed,
      r = String "e" (String sg ed)
      /\ (sg = "+"%char \/ sg = "-"%char)
      /\ all_digits ed = true /\ ed <> EmptyString.

(** [s1] is read to its end as an unsigned decimal literal. *)
Definition unsigned_literal (s1 : string) : Prop :=
  forall neg, exists ip fp ex,
    scan_unsigned neg s1 = ScanDecimal neg ip fp ex EmptyString.

(** The whole of [s] is a signed decimal literal. *)
Definition numeric_literal (s : string) : bool :=
  match scan_StrDecimalLiteral s with
  | ScanDecimal _ _ _ _ EmptyString => true
  | _ => false
  end.

Definition parseFloat (s : string) : number :=
  match scan_StrDecimalLiteral (trim_start s) with
  | ScanNone => NaN
  | ScanInfinity neg _ => S754_infinity neg
  | ScanDecimal neg ip fp ex _ =>
      match digits_value 0 (ip ++ fp) with
      | Zpos m =>
          let x := round_decimal m (ex - Z.of_nat (String.length fp)) in
          if neg then SFopp x else x
      | _ => S754_zero neg
      end
  end.

(** *** Printing a number *)

(** Least [n' >= n] with [num < den * 10 ^ n']. *)
Fixpoint decade_up (fuel : nat) (num den n : Z) : Z :=
  match fuel with
  | O => n
  | S f => if num <? den * 10 ^ n then n else decade_up f num den (n + 1)
  end.

(** Least [t' >= t] with [den <= num * 10 ^ t']. *)
Fixpoint decade_down (fuel : nat) (num den t : Z) : Z :=
  match fuel with
  | O => t
  | S f => if den <=? num * 10 ^ t then t else decade_down f num den (t + 1)
  end.

(** The [n] with [10 ^ (n - 1) <= m * 2 ^ e < 10 ^ n]. *)
Definition decade (m : positive) (e : Z) : Z :=
  let num := Zpos m * 2 ^ Z.max e 0 in
  let den := 2 ^ Z.max (- e) 0 in
  if den <=? num
  then decade_up (S (Z.to_nat (Z.log2 num))) num den 1
  else 1 - decade_down (S (Z.to_nat (Z.log2 den))) num den 1.

(** [m * 2 ^ e / 10 ^ p] as a fraction of two positive integers. *)
Definition scaled (m : positive) (e p : Z) : Z * Z :=
  (Zpos m * 2 ^ Z.max e 0 * 10 ^ Z.max (- p) 0,
   2 ^ Z.max (- e) 0 * 10 ^ Z.max p 0).

(** [s * 10 ^ p] reads back as the number [m * 2 ^ e]. *)
Definition round_trips (m : positive) (e s p : Z) : bool :=
  match s with
  | Zpos s' =>
      match round_decimal s' p with
      | S754_finite false m' e' => Pos.eqb m' m && (e' =? e)
      | _ => false
      end
  | _ => false
  end.

(** Of the two integers around [num / den], the nearer one, the even one
    on a tie. *)
Definition nearest (num den : Z) : Z :=
  let lo := num / den in
  let r := num mod den in
  match 2 * r ?= den with
  | Lt => lo
  | Gt => lo + 1
  | Eq => if Z.even lo then lo else lo + 1
  end.

(** A [k]-digit significand [s] such that [s * 10 ^ (n0 - k)] reads back
    as [m * 2 ^ e], the nearest one when both neighbours do; [10 ^ k]
    stands for the significand 1 one decade up. *)
Definition candidate (m : positive) (e n0 k : Z) : option Z :=
  let p := n0 - k in
  let '(num, den) := scaled m e p in
  let lo := num / den in
  let hi := lo + 1 in
  let ok c := (10 ^ (k - 1) <=? c) && (c <=? 10 ^ k) && round_trips m e c p in
  if num mod den =? 0
  then (if ok lo then Some lo else None)
  else
    match ok lo, ok hi with
    | true, true => Some (nearest num den)
    | true, false => Some lo
    | false, true => Some hi
    | false, false => None
    end.

(** The shortest significand, trying [k], [k + 1], ...; after [fuel]
    lengths the nearest significand of the next length is taken as it is
    (17 digits always identify a binary64 number). *)
Fixpoint shortest (fuel : nat) (m : positive) (e n0 k : Z) : Z * Z :=
  match fuel with
  | O => let '(num, den) := scaled m e (n0 - k) in (nearest num den, k)
  | S f =>
      match candidate m e n0 k with
      | Some s => (s, k)
      | None => shortest f m e n0 (k + 1)
      end
  end.

(** The [k] low decimal digits of [s] in front of [acc]. *)
Fixpoint digits_acc (k : nat) (s : Z) (acc : string) : string :=
  match k with
  | O => acc
  | S k' => digits_acc k' (s / 10) (String (digit_char (s mod 10)) acc)
  end.

(** The decimal numeral of [z >= 0]. *)
Definition numeral (z : Z) : string :=
  digits_acc (Z.to_nat (decade_up (S (Z.to_nat (Z.log2 z))) z 1 1)) z "".

(** Steps 6 to 10 of Number::toString for the digits [ds] of [s] and the
    decimal exponent [n]. *)
Definition format_decimal (ds : string) (n : Z) : string :=
  let k := Z.of_nat (String.length ds) in
  if (k <=? n) && (n <=? 21)
  then ds ++ repeat "0" (Z.to_nat (n - k))
  else if (0 <? n) && (n <=? 21)
  then substring 0 (Z.to_nat n) ds ++ "."
         ++ substring (Z.to_nat n) (Z.to_nat (k - n)) ds
  else if (-6 <? n) && (n <=? 0)
  then "0." ++ repeat "0" (Z.to_nat (- n)) ++ ds
  else
    let e := n - 1 in
    let es := (if e <? 0 then "-" else "+") ++ numeral (Z.abs e) in
    match ds with
    | String d EmptyString => String d "e" ++ es
    | String d rest => String d "." ++ rest ++ "e" ++ es
    | EmptyString => "e" ++ es
    end.

(** The digits and decimal exponent of the positive number [m * 2 ^ e]. *)
Definition shortest_digits (m : positive) (e : Z) : string * Z :=
  let n0 := decade m e in
  let '(s, k) := shortest 16 m e n0 1 in
  if s =? 10 ^ k
  then (digits_acc (Z.to_nat k) (10 ^ (k - 1)) "", n0 + 1)
  else (digits_acc (Z.to_nat k) s "", n0).

Definition toString (x : number) : string :=
  match x with
  | S754_nan => "NaN"
  | S754_zero _ => "0"
  | S754_infinity s => if s then "-Infinity" else "Infinity"
  | S754_finite s m e =>
      let '(ds, n) := shortest_digits m e in
      (if s then "-" else "") ++ format_decimal ds n
  end.

End JSNumber.

(** ** The reducer *)

Import JSString JSNumber.
Local Open Scope string_scope.

(** [type CalculatorState]; [operation : string | null]. *)
Record CalculatorState : Type := {
  currentValue : string;
  previousValue : string;
  operation : option string;
  overwrite : bool
}.

(** [type CalculatorAction].  [OTHER] is an action whose tag is none of the
    five of the union, which only an untyped caller can build; it is what
    the [default] branch of the reducer receives. *)
Inductive CalculatorAction : Type :=
| ADD_DIGIT (payload : string)
| CHOOSE_OPERATION (payload : string)
| CLEAR
| DELETE
| EVALUATE
| OTHER.

(** The operator symbols: [+], [-], U+00D7 and U+00F7. *)
Definition op_plus : string := "+".
Definition op_minus : string := "-".
Definition op_times : string := String "215" "".
Definition op_divide : string := String "247" "".

Definition initialState : CalculatorState := {|
  currentValue := "0";
  previousValue := "";
  operation := None;
  overwrite := true
|}.

(** [if (state.operation)]: [null] and the empty string are falsy. *)
Definition truthy (o : option string) : bool :=
  match o with
  | Some (String _ _) => true
  | _ => false
  end.

(** [function calculate(state)]. *)
Definition calculate (state : CalculatorState) : string :=
  let prev := parseFloat (previousValue state) in
  let current := parseFloat (currentValue state) in
  if isNaN prev || isNaN current then "0"
  else
    match operation state with
    | Some op =>
        if op =? op_plus then toString (add prev current)
        else if op =? op_minus then toString (sub prev current)
        else if op =? op_times then toString (mul prev current)
        else if op =? op_divide then
          if is_zero current then "Error"
          else toString (div prev current)
        else "0"
    | None => "0"
    end.

(** [function calculatorReducer(state, action)]. *)
Definition calculatorReducer (state : CalculatorState)
    (action : CalculatorAction) : CalculatorState :=
  match action with
  | ADD_DIGIT payload =>
      if overwrite state then
        {| currentValue := payload;
           previousValue := previousValue state;
           operation := operation state;
           overwrite := false |}
      else if (payload =? ".") && includes (currentValue state) "." then
        state
      else
        {| currentValue :=
             if (currentValue state =? "0") && negb (payload =? ".")
             then payload
             else currentValue state ++ payload;
           previousValue := previousValue state;
           operation := operation state;
           overwrite := overwrite state |}
  | CHOOSE_OPERATION payload =>
      if (currentValue state =? "0") && (previousValue state =? "") then
        state
      else if previousValue state =? "" then
        {| currentValue := "0";
           previousValue := currentValue state;
           operation := Some payload;
           overwrite := true |}
      else if truthy (operation state) then
        let result := calculate state in
        {| currentValue := "0";
           previousValue := result;
           operation := Some payload;
           overwrite := true |}
      else state
  | CLEAR => initialState
  | DELETE =>
      if overwrite state then
        {| currentValue := "0";
           previousValue := previousValue state;
           operation := operation state;
           overwrite := true |}
      else if (String.length (currentValue state) =? 1)%nat then
        {| currentValue := "0";
           previousValue := previousValue state;
           operation := operation state;
           overwrite := true |}
      else
        {| currentValue := slice_0_m1 (currentValue state);
           previousValue := previousValue state;
           operation := operation state;
           overwrite := overwrite state |}
  | EVALUATE =>
      match operation state with
      | None => state
      | Some _ =>
          if (previousValue state =? "") || (currentValue state =? "0") then
            state
          else
            {| currentValue := calculate state;
               previousValue := "";
               operation := None;
               overwrite := true |}
      end
  | OTHER => state
  end.

(** ** Sessions *)

(** The events the interface sends: a digit key carries one of [0]..[9] or
    the point, an operator key one of the four symbols. *)
Definition digit_key (d : string) : bool :=
  match d with
  | String c EmptyString => is_digit c || Ascii.eqb c "."
  | _ => false
  end.

Definition operator_key (o : string) : bool :=
  (o =? op_plus) || (o =? op_minus) || (o =? op_times) || (o =? op_divide).

Definition ui_event (a : CalculatorAction) : bool :=
  match a with
  | ADD_DIGIT d => digit_key d
  | CHOOSE_OPERATION o => operator_key o
  | CLEAR | DELETE | EVALUATE => true
  | OTHER => false
  end.

(** The state after a sequence of events, from the initial state. *)
Definition run (events : list CalculatorAction) : CalculatorState :=
  fold_left calculatorReducer events initialState.

(** The key 9 pressed 310 times: an operand beyond the largest number. *)
Definition long_entry : list CalculatorAction :=
  List.repeat (ADD_DIGIT "9") 310.

Inductive reachable : CalculatorState -> Prop :=
| reachable_init : reachable initialState
| reachable_step (s : CalculatorState) (a : CalculatorAction) :
    reachable s -> ui_event a = true -> reachable (calculatorReducer s a).

(** What is typed on the keys: digits with at most one point, not empty. *)
Fixpoint entry_chars (s : string) : bool :=
  match s with
  | EmptyString => true
  | String c t => (is_digit c || Ascii.eqb c ".") && entry_chars t
  end.

Fixpoint count_points (s : string) : nat :=
  match s with
  | EmptyString => O
  | String c t => ((if Ascii.eqb c "." then 1 else 0) + count_points t)%nat
  end.

Definition entry (s : string) : bool :=
  negb (s =? "") && entry_chars s && (count_points s <=? 1)%nat.

(** The values the data model of the specification allows. *)
Definition spec_currentValue (v : string) : bool :=
  numeric_literal v || (v =? "Error") || (v =? "0").

Definition spec_previousValue (v : string) : bool :=
  numeric_literal v || (v =? "").

(** The values the display can hold. *)
Definition display_value (v : string) : bool :=
  numeric_literal v || (v =? ".") || (v =? "Error") || (v =? "NaN")
  || (v =? "Infinity") || (v =? "-Infinity").

(** What holds of every state of a session. *)
Definition display_invariant (s : CalculatorState) : Prop :=
  display_value (currentValue s) = true
  /\ (previousValue s = "" \/ display_value (previousValue s) = true)
  /\ (overwrite s = false -> entry (currentValue s) = true).

(** The guards under which the reducer hands back its argument: a second
    point, an operator before any operand, an operator when the pending one
    is missing, Evaluate with nothing to evaluate, Delete on the cleared
    display, and an action of no known tag. *)
Definition no_op_guard (S : CalculatorState) (E : CalculatorAction) : bool :=
  match E with
  | ADD_DIGIT d =>
      negb (overwrite S) && (d =? ".") && includes (currentValue S) "."
  | CHOOSE_OPERATION _ =>
      ((currentValue S =? "0") && (previousValue S =? ""))
      || (negb (previousValue S =? "") && negb (truthy (operation S)))
  | CLEAR => false
  | DELETE => overwrite S && (currentValue S =? "0")
  | EVALUATE =>
      match operation S with
      | None => true
      | Some _ => (previousValue S =? "") || (currentValue S =? "0")
      end
  | OTHER => true
  end.

(** ** The reducer on the values of the language *)

(** The reducer again, as JavaScript runs it: on values that carry no
    type, where a field can be undefined and an operation can throw.  The
    values are the primitive ones. *)
Inductive value : Type :=
| VUndefined
| VNull
| VBoolean (b : bool)
| VNumber (x : number)
| VString (s : string).

(** What running a piece of code ends in. *)
Inductive completion (A : Type) : Type :=
| Returns (a : A)
| Throws (error : string).

Arguments Returns {A} a.
Arguments Throws {A} error.

(** A state object: the value read from each of its four properties,
    [VUndefined] for a property that is not there. *)
Record js_state : Type := {
  js_currentValue : value;
  js_previousValue : value;
  js_operation : value;
  js_overwrite : value
}.

(** An action object: [action.type] and [action.payload]. *)
Record js_action : Type := {
  js_type : value;
  js_payload : value
}.

(** [v === s] for a string [s]. *)
Definition strict_equals_string (v : value) (s : string) : bool :=
  match v with
  | VString t => t =? s
  | _ => false
  end.

(** [v == null]. *)
Definition loose_equals_null (v : value) : bool :=
  match v with
  | VUndefined | VNull => true
  | _ => false
  end.

Definition ToBoolean (v : value) : bool :=
  match v with
  | VUndefined | VNull => false
  | VBoolean b => b
  | VNumber x => negb (isNaN x || is_zero x)
  | VString s => negb (s =? "")
  end.

Definition ToString (v : value) : string :=
  match v with
  | VUndefined => "undefined"
  | VNull => "null"
  | VBoolean true => "true"
  | VBoolean false => "false"
  | VNumber x => toString x
  | VString s => s
  end.

(** [v.includes(c)]: only a string has the method. *)
Definition call_includes (v : value) (c : ascii) : completion bool :=
  match v with
  | VString s => Returns (includes s c)
  | _ => Throws "TypeError"
  end.

(** [v.length === 1]: reading a property of undefined or null throws; a
    boolean or a number has no length. *)
Definition length_is_1 (v : value) : completion bool :=
  match v with
  | VString s => Returns (String.length s =? 1)%nat
  | VUndefined | VNull => Throws "TypeError"
  | VBoolean _ | VNumber _ => Returns false
  end.

(** [v.slice(0, -1)]: only a string has the method. *)
Definition call_slice_0_m1 (v : value) : completion value :=
  match v with
  | VString s => Returns (VString (slice_0_m1 s))
  | _ => Throws "TypeError"
  end.

(** [calculate(state)]; [parseFloat] converts its argument to a string
    first. *)
Definition calculate_js (state : js_state) : string :=
  let prev := parseFloat (ToString (js_previousValue state)) in
  let current := parseFloat (ToString (js_currentValue state)) in
  if isNaN prev || isNaN current then "0"
  else if strict_equals_string (js_operation state) "+" then
    toString (add prev current)
  else if strict_equals_string (js_operation state) "-" then
    toString (sub prev current)
  else if strict_equals_string (js_operation state) op_times then
    toString (mul prev current)
  else if strict_equals_string (js_operation state) op_divide then
    if is_zero current then "Error" else toString (div prev current)
  else "0".

Definition js_initialState : js_state := {|
  js_currentValue := VString "0";
  js_previousValue := VString "";
  js_operation := VNull;
  js_overwrite := VBoolean true
|}.

(** [calculatorReducer(state, action)], statement by statement. *)
Definition reducer_js (state : js_state) (action : js_action)
    : completion js_state :=
  if strict_equals_string (js_type action) "ADD_DIGIT" then
    if ToBoolean (js_overwrite state) then
      Returns {| js_currentValue := js_payload action;
                 js_previousValue := js_previousValue state;
                 js_operation := js_operation state;
                 js_overwrite := VBoolean false |}
    else
      let appended :=
        Returns
          {| js_currentValue :=
               if strict_equals_string (js_currentValue state) "0"
                  && negb (strict_equals_string (js_payload action) ".")
               then js_payload action
               else VString (ToString (js_currentValue state)
                               ++ ToString (js_payload action));
             js_previousValue := js_previousValue state;
             js_operation := js_operation state;
             js_overwrite := js_overwrite state |} in
      if strict_equals_string (js_payload action) "." then
        match call_includes (js_currentValue state) "." with
        | Throws e => Throws e
        | Returns true => Returns state
        | Returns false => appended
        end
      else appended
  else if strict_equals_string (js_type action) "CHOOSE_OPERATION" then
    if strict_equals_string (js_currentValue state) "0"
       && strict_equals_string (js_previousValue state) ""
    then Returns state
    else if strict_equals_string (js_previousValue state) "" then
      Returns {| js_currentValue := VString "0";
                 js_previousValue := js_currentValue state;
                 js_operation := js_payload action;
                 js_overwrite := VBoolean true |}
    else if ToBoolean (js_operation state) then
      Returns {| js_currentValue := VString "0";
                 js_previousValue := VString (calculate_js state);
                 js_operation := js_payload action;
                 js_overwrite := VBoolean true |}
    else Returns state
  else if strict_equals_string (js_type action) "CLEAR" then
    Returns js_initialState
  else if strict_equals_string (js_type action) "DELETE" then
    if ToBoolean (js_overwrite state) then
      Returns {| js_currentValue := VString "0";
                 js_previousValue := js_previousValue state;
                 js_operation := js_operation state;
                 js_overwrite := VBoolean true |}
    else
      match length_is_1 (js_currentValue state) with
      | Throws e => Throws e
      | Returns true =>
          Returns {| js_currentValue := VString "0";
                     js_previousValue := js_previousValue state;
                     js_operation := js_operation state;
                     js_overwrite := VBoolean true |}
      | Returns false =>
          match call_slice_0_m1 (js_currentValue state) with
          | Throws e => Throws e
          | Returns sliced =>
              Returns {| js_currentValue := sliced;
                         js_previousValue := js_previousValue state;
                         js_operation := js_operation state;
                         js_overwrite := js_overwrite state |}
          end
      end
  else if strict_equals_string (js_type action) "EVALUATE" then
    if loose_equals_null (js_operation state)
       || strict_equals_string (js_previousValue state) ""
       || strict_equals_string (js_currentValue state) "0"
    then Returns state
    else
      Returns {| js_currentValue := VString (calculate_js state);
                 js_previousValue := VString "";
                 js_operation := VNull;
                 js_overwrite := VBoolean true |}
  else Returns state.

(** A state of type [CalculatorState]: two strings, a string or null, a
    boolean; no field is undefined. *)
Definition typed_state (s : js_state) : bool :=
  match js_currentValue s, js_previousValue s, js_operation s, js_overwrite s
  with
  | VString _, VString _, (VNull | VString _), VBoolean _ => true
  | _, _, _, _ => false
  end.

(** An action of type [CalculatorAction]. *)
Definition typed_action (a : js_action) : bool :=
  match js_type a, js_payload a with
  | VString t, VString _ => (t =? "ADD_DIGIT") || (t =? "CHOOSE_OPERATION")
  | VString t, VUndefined =>
      (t =? "CLEAR") || (t =? "DELETE") || (t =? "EVALUATE")
  | _, _ => false
  end.

(** The object of a typed state, and of a typed action. *)
Definition inject_state (S : CalculatorState) : js_state := {|
  js_currentValue := VString (currentValue S);
  js_previousValue := VString (previousValue S);
  js_operation :=
    match operation S with
    | Some o => VString o
    | None => VNull
    end;
  js_overwrite := VBoolean (overwrite S)
|}.

Definition inject_action (E : CalculatorAction) : js_action :=
  match E with
  | ADD_DIGIT d => {| js_type := VString "ADD_DIGIT"; js_payload := VString d |}
  | CHOOSE_OPERATION o =>
      {| js_type := VString "CHOOSE_OPERATION"; js_payload := VString o |}
  | CLEAR => {| js_type := VString "CLEAR"; js_payload := VUndefined |}
  | DELETE => {| js_type := VString "DELETE"; js_payload := VUndefined |}
  | EVALUATE => {| js_type := VString "EVALUATE"; js_payload := VUndefined |}
  | OTHER => {| js_type := VUndefined; js_payload := VUndefined |}
  end.

(** ** The keyboard and the buttons *)

(** [handleKeyDown] in [App]: the action dispatched for [e.key], if any,
    and whether [e.preventDefault()] is called.  [>=] and [<=] on strings
    compare the code units in order, a proper prefix coming first. *)
Definition handleKeyDown (key : string) : option CalculatorAction * bool :=
  if String.leb "0" key && String.leb key "9" then
    (Some (ADD_DIGIT key), false)
  else if key =? "." then (Some (ADD_DIGIT "."), false)
  else if key =? "+" then (Some (CHOOSE_OPERATION op_plus), false)
  else if key =? "-" then (Some (CHOOSE_OPERATION op_minus), false)
  else if key =? "*" then (Some (CHOOSE_OPERATION op_times), false)
  else if key =? "/" then (Some (CHOOSE_OPERATION op_divide), false)
  else if (key =? "Enter") || (key =? "=") then (Some EVALUATE, true)
  else if key =? "Backspace" then (Some DELETE, false)
  else if key =? "Escape" then (Some CLEAR, false)
  else (None, false).

(** The [onClick] actions of the eighteen buttons of [App], row by row. *)
Definition buttons : list CalculatorAction :=
  [ CLEAR; DELETE;
    ADD_DIGIT "7"; ADD_DIGIT "8"; ADD_DIGIT "9"; CHOOSE_OPERATION op_divide;
    ADD_DIGIT "4"; ADD_DIGIT "5"; ADD_DIGIT "6"; CHOOSE_OPERATION op_times;
    ADD_DIGIT "1"; ADD_DIGIT "2"; ADD_DIGIT "3"; CHOOSE_OPERATION op_minus;
    ADD_DIGIT "0"; ADD_DIGIT "."; EVALUATE; CHOOSE_OPERATION op_plus ].

(** [useReducer]: the state after a key, reduced by the action it
    dispatches. *)
Definition press_key (s : CalculatorState) (key : string) : CalculatorState :=
  match fst (handleKeyDown key) with
  | Some a => calculatorReducer s a
  | None => s
  end.

Definition type_keys (keys : list string) : CalculatorState :=
  fold_left press_key keys initialState.

(** A key of one character, or one whose name does not start with a
    digit. *)
Definition plain_key (key : string) : bool :=
  match key with
  | EmptyString => true
  | String c t => negb (is_digit c) || (t =? "")
  end.

(** A key that dispatches the action [a] of a button. *)
Definition key_for (a : CalculatorAction) : string :=
  match a with
  | ADD_DIGIT d => d
  | CHOOSE_OPERATION o =>
      if o =? op_times then "*" else if o =? op_divide then "/" else o
  | CLEAR => "Escape"
  | DELETE => "Backspace"
  | EVALUATE => "Enter"
  | OTHER => ""
  end.

(** ** Further notions for the properties *)

(** [n] Delete events in a row. *)
Definition delete_times (n : nat) (s : CalculatorState) : CalculatorState :=
  Nat.iter n (fun s' => calculatorReducer s' DELETE) s.

(** A zero in front of another digit. *)
Definition leading_zero (s : string) : bool :=
  match s with
  | String a (String c _) => Ascii.eqb a "0" && is_digit c
  | _ => false
  end.

(** A left operand is held exactly when an operator is pending, and the
    pending operator is one of the four symbols. *)
Definition pending_invariant (s : CalculatorState) : Prop :=
  (operation s = None <-> previousValue s = "")
  /\ (forall o, operation s = Some o -> operator_key o = true).

(** The operands [a] and [b] around the pending operator [o]. *)
Definition operands (o a b : string) : CalculatorState :=
  {| currentValue := b; previousValue := a;
     operation := Some o; overwrite := false |}.

(** The decimal numeral of a natural number, as the standard library
    prints it. *)
Definition decimal (n : nat) : string :=
  NilZero.string_of_uint (Nat.to_uint n).

(** The four operations on the numerals of [a] and [b] give the numerals
    of the exact results. *)
Definition exact_on (a b : nat) : bool :=
  (calculate (operands op_plus (decimal a) (decimal b)) =? decimal (a + b))
  && (calculate (operands op_times (decimal a) (decimal b)) =? decimal (a * b))
  && (calculate (operands op_minus (decimal a) (decimal b))
      =? (if (a <? b)%nat then "-" ++ decimal (b - a) else decimal (a - b)))
  && ((b =? 0)%nat
      || (calculate (operands op_divide (decimal (a * b)) (decimal b))
          =? decimal a)).

(** * Properties *)

(** ** The built-ins on the inputs of the examples *)

Example parseFloat_5 : toString (parseFloat "5") = "5".
Proof. vm_compute. reflexivity. Qed.

Example parseFloat_point : parseFloat "." = NaN.
Proof. reflexivity. Qed.

Example parseFloat_trailing_point : parseFloat "0." = S754_zero false.
Proof. reflexivity. Qed.

Example toString_tenth_plus_fifth :
  toString (add (parseFloat "0.1") (parseFloat "0.2")) = "0.30000000000000004".
Proof. vm_compute. reflexivity. Qed.

Example toString_exponent :
  toString (parseFloat "1000000000000000000000") = "1e+21".
Proof. vm_compute. reflexivity. Qed.

Example toString_third :
  toString (div (parseFloat "1") (parseFloat "3")) = "0.3333333333333333".
Proof. vm_compute. reflexivity. Qed.

Example toString_smallest : toString (parseFloat "5e-324") = "5e-324".
Proof. vm_compute. reflexivity. Qed.

Example toString_nearest_power :
  toString (parseFloat "100000000000000000000000") = "1e+23".
Proof. vm_compute. reflexivity. Qed.

Example parseFloat_prefix : toString (parseFloat "  12px") = "12".
Proof. vm_compute. reflexivity. Qed.

Example round_trip_7_plus_3 :
  currentValue
    (run [ADD_DIGIT "7"; CHOOSE_OPERATION op_plus; ADD_DIGIT "3"; EVALUATE]) = "10"
  /\ currentValue
       (run [ADD_DIGIT "7"; CHOOSE_OPERATION op_plus; ADD_DIGIT "3"; EVALUATE;
             ADD_DIGIT "2"]) = "2".
Proof. split; vm_compute; reflexivity. Qed.

Example leading_zero_suppressed :
  currentValue (run [ADD_DIGIT "0"; ADD_DIGIT "5"]) = "5".
Proof. reflexivity. Qed.

(** ** Strings *)

Lemma string_eqb_true (a b : string) : (a =? b) = true <-> a = b.
Proof. apply String.eqb_eq. Qed.

Lemma string_eqb_false (a b : string) : (a =? b) = false <-> a <> b.
Proof. apply String.eqb_neq. Qed.

Lemma substring_0_cons (n : nat) (a : ascii) (s : string) :
  substring 0 (S n) (String a s) = String a (substring 0 n s).
Proof. reflexivity. Qed.

Lemma length_snoc (t : string) (c : ascii) :
  String.length (t ++ String c "") = S (String.length t).
Proof. induction t as [|a t IH]; simpl; [reflexivity | now rewrite IH]. Qed.

Lemma substring_0_snoc (t : string) (c : ascii) :
  substring 0 (String.length t) (t ++ String c "") = t.
Proof.
  induction t as [|a t IH]; simpl.
  - reflexivity.
  - now rewrite IH.
Qed.

(** [slice(0, -1)] drops the last character, and only that. *)
Lemma slice_0_m1_snoc (t : string) (c : ascii) :
  slice_0_m1 (t ++ String c "") = t.
Proof.
  unfold slice_0_m1. rewrite length_snoc.
  replace (S (String.length t) - 1)%nat with (String.length t) by lia.
  apply substring_0_snoc.
Qed.

Lemma slice_0_m1_empty : slice_0_m1 "" = "".
Proof. reflexivity. Qed.

(** ** Evaluation *)

(** C1, as amended.  After Digit(5), ChooseOperation(division), Digit(0)
    the Evaluate event is a no-op, because currentValue is "0": the state
    keeps currentValue "0", previousValue "5" and the pending division.
    With the zero divisor typed as "0." Evaluate yields "Error". *)
Theorem C1_division_by_typed_zero :
  run [ADD_DIGIT "5"; CHOOSE_OPERATION op_divide; ADD_DIGIT "0"; EVALUATE]
  = {| currentValue := "0"; previousValue := "5";
       operation := Some op_divide; overwrite := false |}
  /\ currentValue
       (run [ADD_DIGIT "5"; CHOOSE_OPERATION op_divide; ADD_DIGIT "0";
             ADD_DIGIT "."; EVALUATE]) = "Error".
Proof. split; vm_compute; reflexivity. Qed.

(** C1 as stated fails: the sequence ends with currentValue "0". *)
Lemma C1_counterexample :
  currentValue
    (run [ADD_DIGIT "5"; CHOOSE_OPERATION op_divide; ADD_DIGIT "0"; EVALUATE])
  <> "Error".
Proof. vm_compute. discriminate. Qed.

(** C3.  Evaluate returns the state unchanged exactly when operation is
    absent, previousValue is empty or currentValue is "0"; otherwise
    currentValue becomes the result of [calculate], previousValue is
    emptied, operation is cleared and overwrite is set. *)
Theorem C3_evaluate (S : CalculatorState) :
  (calculatorReducer S EVALUATE = S
   <-> operation S = None \/ previousValue S = "" \/ currentValue S = "0")
  /\ (~ (operation S = None \/ previousValue S = "" \/ currentValue S = "0")
      -> calculatorReducer S EVALUATE
         = {| currentValue := calculate S; previousValue := "";
              operation := None; overwrite := true |}).
Proof.
  destruct S as [cur prev op ow]; simpl.
  destruct op as [o|].
  - destruct (String.eqb_spec prev "") as [Hp|Hp];
      destruct (String.eqb_spec cur "0") as [Hc|Hc]; simpl.
    + split; [split; auto | intros H; exfalso; apply H; auto].
    + split; [split; auto | intros H; exfalso; apply H; auto].
    + split; [split; auto | intros H; exfalso; apply H; auto].
    + split.
      * split.
        -- intros H. injection H as _ H _ _. exfalso. apply Hp. now rewrite H.
        -- intros [H|[H|H]]; [discriminate | contradiction | contradiction].
      * reflexivity.
  - split; [split; auto | intros H; exfalso; apply H; auto].
Qed.

Lemma C3_evaluate_witness :
  calculatorReducer
    {| currentValue := "3"; previousValue := "7";
       operation := Some op_plus; overwrite := false |} EVALUATE
  = {| currentValue := "10"; previousValue := "";
       operation := None; overwrite := true |}.
Proof.
  refine (proj2 (C3_evaluate _) _).
  intros [H|[H|H]]; discriminate H.
Defined.

(** C4.  Chaining folds to the left: 2 + 3 is evaluated when the second
    operator is chosen, and the product with 4 is "20". *)
Theorem C4_chaining :
  currentValue
    (run [ADD_DIGIT "2"; CHOOSE_OPERATION op_plus; ADD_DIGIT "3";
          CHOOSE_OPERATION op_times; ADD_DIGIT "4"; EVALUATE]) = "20".
Proof. vm_compute. reflexivity. Qed.

(** ** Clear *)

(** C7.  Clear yields the initial state from any state, so a second Clear
    changes nothing. *)
Theorem C7_clear (S : CalculatorState) :
  calculatorReducer S CLEAR
  = {| currentValue := "0"; previousValue := "";
       operation := None; overwrite := true |}
  /\ calculatorReducer S CLEAR = initialState
  /\ calculatorReducer (calculatorReducer S CLEAR) CLEAR
     = calculatorReducer S CLEAR.
Proof. repeat split. Qed.

(** ** Digits *)

(** C9.  Outside overwrite mode a second point is rejected, and typing
    1, point, point, 2 shows "1.2". *)
Theorem C9_decimal_guard :
  (forall S : CalculatorState,
      overwrite S = false ->
      includes (currentValue S) "." = true ->
      calculatorReducer S (ADD_DIGIT ".") = S)
  /\ currentValue
       (run [ADD_DIGIT "1"; ADD_DIGIT "."; ADD_DIGIT "."; ADD_DIGIT "2"])
     = "1.2".
Proof.
  split; [|reflexivity].
  intros S Hov Hinc. unfold calculatorReducer.
  rewrite Hov, Hinc. reflexivity.
Qed.

Lemma C9_decimal_guard_witness :
  calculatorReducer
    {| currentValue := "1."; previousValue := "";
       operation := None; overwrite := false |} (ADD_DIGIT ".")
  = {| currentValue := "1."; previousValue := "";
       operation := None; overwrite := false |}.
Proof.
  apply (proj1 C9_decimal_guard); reflexivity.
Defined.

(** ** Delete *)

(** C10.  Delete resets currentValue to "0" and sets overwrite when
    overwrite is set or currentValue has one character; otherwise it
    removes the last character of currentValue and nothing else.  From the
    initial state it leaves "0"; from "12" it yields "1", then "0" with
    overwrite set. *)
Theorem C10_delete :
  (forall S : CalculatorState,
      overwrite S = true \/ String.length (currentValue S) = 1%nat ->
      calculatorReducer S DELETE
      = {| currentValue := "0"; previousValue := previousValue S;
           operation := operation S; overwrite := true |})
  /\ (forall S : CalculatorState,
         overwrite S = false ->
         String.length (currentValue S) <> 1%nat ->
         calculatorReducer S DELETE
         = {| currentValue := slice_0_m1 (currentValue S);
              previousValue := previousValue S;
              operation := operation S; overwrite := false |}
         /\ (forall t c, currentValue S = t ++ String c "" ->
                         currentValue (calculatorReducer S DELETE) = t))
  /\ currentValue (calculatorReducer initialState DELETE) = "0"
  /\ (forall prev op,
         let S12 := {| currentValue := "12"; previousValue := prev;
                       operation := op; overwrite := false |} in
         currentValue (calculatorReducer S12 DELETE) = "1"
         /\ currentValue
              (calculatorReducer (calculatorReducer S12 DELETE) DELETE) = "0"
         /\ overwrite
              (calculatorReducer (calculatorReducer S12 DELETE) DELETE) = true).
Proof.
  split; [|split; [|split]].
  - intros [cur prev op ow] [H|H]; simpl in *.
    + now rewrite H.
    + rewrite H. now destruct ow.
  - intros [cur prev op ow] Hov Hlen; simpl in Hov, Hlen. subst ow.
    apply Nat.eqb_neq in Hlen.
    assert (E : calculatorReducer
                  {| currentValue := cur; previousValue := prev;
                     operation := op; overwrite := false |} DELETE
                = {| currentValue := slice_0_m1 cur; previousValue := prev;
                     operation := op; overwrite := false |}).
    { simpl. now rewrite Hlen. }
    split; [exact E|].
    intros t c Ht. rewrite E. simpl in Ht |- *. rewrite Ht.
    apply slice_0_m1_snoc.
  - reflexivity.
  - intros prev op. repeat split.
Qed.

Lemma C10_delete_witness :
  calculatorReducer
    {| currentValue := "12"; previousValue := "";
       operation := None; overwrite := false |} DELETE
  = {| currentValue := "1"; previousValue := "";
       operation := None; overwrite := false |}.
Proof.
  refine (proj1 (proj1 (proj2 C10_delete) _ _ _)).
  - reflexivity.
  - simpl. lia.
Defined.

(** ** The evaluator *)

Lemma is_zero_not_NaN (x : number) : is_zero x = true -> isNaN x = false.
Proof. destruct x; simpl; intros H; [reflexivity | reflexivity | discriminate H | reflexivity]. Qed.

Lemma calculate_NaN (S : CalculatorState) :
  isNaN (parseFloat (previousValue S)) = true
  \/ isNaN (parseFloat (currentValue S)) = true ->
  calculate S = "0".
Proof.
  intros H. unfold calculate.
  destruct H as [H|H]; rewrite H; [reflexivity | now rewrite orb_true_r].
Qed.

Lemma calculate_divide_by_zero (S : CalculatorState) :
  isNaN (parseFloat (previousValue S)) = false ->
  operation S = Some op_divide ->
  is_zero (parseFloat (currentValue S)) = true ->
  calculate S = "Error".
Proof.
  intros Hp Ho Hz. unfold calculate.
  rewrite Hp, (is_zero_not_NaN _ Hz), Ho, Hz. reflexivity.
Qed.

(** C8.  [calculate] is a total function, so it never raises: it returns
    "0" when either operand does not parse, and otherwise "Error" when the
    operation is the division and the current operand is zero. *)
Theorem C8_calculate (S : CalculatorState) :
  (isNaN (parseFloat (previousValue S)) = true
   \/ isNaN (parseFloat (currentValue S)) = true ->
   calculate S = "0")
  /\ (isNaN (parseFloat (previousValue S)) = false ->
      operation S = Some op_divide ->
      is_zero (parseFloat (currentValue S)) = true ->
      calculate S = "Error").
Proof. split; [apply calculate_NaN | apply calculate_divide_by_zero]. Qed.

Lemma C8_calculate_witness :
  calculate {| currentValue := "0"; previousValue := "5";
               operation := Some op_divide; overwrite := false |} = "Error"
  /\ calculate {| currentValue := "0"; previousValue := ".";
                  operation := Some op_divide; overwrite := false |} = "0".
Proof.
  split.
  - apply (proj2 (C8_calculate _)); reflexivity.
  - apply (proj1 (C8_calculate _)). left. reflexivity.
Defined.

(** The parse check comes first: with a left operand that does not
    parse, a division by zero gives "0". *)
Example calculate_parse_check_first :
  calculate {| currentValue := "0"; previousValue := ".";
               operation := Some op_divide; overwrite := false |} = "0".
Proof. reflexivity. Qed.

(** ** Choosing an operator *)

(** C5, as amended.  With a left operand and a pending operator, choosing
    an operator evaluates the pending operation whatever currentValue is,
    "0" included, and stores the result in previousValue, where Evaluate
    leaves a state with currentValue "0" as it is.  For a pending
    division and currentValue "0" the stored result is "Error" when
    previousValue parses as a number, and "0" when it does not. *)
Theorem C5_choose_operation_chains (S : CalculatorState) (op' : string) :
  previousValue S <> "" ->
  truthy (operation S) = true ->
  calculatorReducer S (CHOOSE_OPERATION op')
  = {| currentValue := "0"; previousValue := calculate S;
       operation := Some op'; overwrite := true |}
  /\ (currentValue S = "0" -> calculatorReducer S EVALUATE = S)
  /\ (operation S = Some op_divide ->
      currentValue S = "0" ->
      (isNaN (parseFloat (previousValue S)) = false ->
       previousValue (calculatorReducer S (CHOOSE_OPERATION op')) = "Error")
      /\ (isNaN (parseFloat (previousValue S)) = true ->
          previousValue (calculatorReducer S (CHOOSE_OPERATION op')) = "0")).
Proof.
  intros Hp Ht.
  assert (E : calculatorReducer S (CHOOSE_OPERATION op')
              = {| currentValue := "0"; previousValue := calculate S;
                   operation := Some op'; overwrite := true |}).
  { unfold calculatorReducer.
    apply string_eqb_false in Hp. rewrite Hp, Ht.
    now rewrite andb_false_r. }
  split; [exact E|]. split.
  { intros Hc. unfold calculatorReducer. rewrite Hc.
    destruct (operation S); [|reflexivity].
    now rewrite orb_true_r. }
  intros Ho Hc. rewrite E. simpl. split; intros Hn.
  - apply calculate_divide_by_zero; [exact Hn | exact Ho |].
    rewrite Hc. reflexivity.
  - apply calculate_NaN. now left.
Qed.

Lemma C5_choose_operation_chains_witness :
  calculatorReducer
    {| currentValue := "0"; previousValue := "5";
       operation := Some op_divide; overwrite := true |}
    (CHOOSE_OPERATION op_plus)
  = {| currentValue := "0"; previousValue := "Error";
       operation := Some op_plus; overwrite := true |}.
Proof.
  refine (proj1 (C5_choose_operation_chains _ _ _ _)).
  - discriminate.
  - reflexivity.
Defined.

(** C5 as stated fails: a reachable state with a left operand, a pending
    division and currentValue "0" where choosing an operator stores "0",
    not "Error". *)
Lemma C5_counterexample :
  let S := run [ADD_DIGIT "."; CHOOSE_OPERATION op_divide] in
  previousValue S <> ""
  /\ operation S = Some op_divide
  /\ currentValue S = "0"
  /\ previousValue (calculatorReducer S (CHOOSE_OPERATION op_plus)) <> "Error".
Proof. vm_compute. repeat split; discriminate. Qed.

(** ** Totality *)

Lemma no_op_guard_returns_state (S : CalculatorState) (E : CalculatorAction) :
  no_op_guard S E = true -> calculatorReducer S E = S.
Proof.
  destruct S as [cur prev op ow]. destruct E as [d|o| | | |]; simpl.
  - destruct ow; simpl; [discriminate|]. intros H. now rewrite H.
  - destruct (String.eqb_spec cur "0"), (String.eqb_spec prev "");
      simpl; try reflexivity; try discriminate.
    + intros H. apply negb_true_iff in H. now rewrite H.
    + intros H. apply negb_true_iff in H. now rewrite H.
  - discriminate.
  - destruct ow; simpl; [|discriminate].
    intros H. apply string_eqb_true in H. now subst cur.
  - destruct op; [|reflexivity]. intros H. now rewrite H.
  - reflexivity.
Qed.

Lemma calculate_js_inject (S : CalculatorState) :
  calculate_js (inject_state S) = calculate S.
Proof.
  unfold calculate_js, calculate.
  destruct S as [cur prev [o|] ow];
    cbn [inject_state js_currentValue js_previousValue js_operation
         currentValue previousValue operation ToString strict_equals_string];
    destruct (isNaN (parseFloat prev) || isNaN (parseFloat cur)); reflexivity.
Qed.

Lemma ToBoolean_operation (S : CalculatorState) :
  ToBoolean (js_operation (inject_state S)) = truthy (operation S).
Proof. destruct S as [cur prev [[|c o]|] ow]; reflexivity. Qed.

Ltac js_values :=
  cbn [inject_state inject_action js_type js_payload js_currentValue
       js_previousValue js_operation js_overwrite strict_equals_string
       loose_equals_null ToBoolean ToString call_includes length_is_1
       call_slice_0_m1 String.eqb Ascii.eqb Bool.eqb andb orb negb
       currentValue previousValue operation overwrite].

(** On the objects of typed states and actions the reducer of the language
    returns, and returns the object of what [calculatorReducer] gives. *)
Lemma reducer_js_inject (S : CalculatorState) (E : CalculatorAction) :
  reducer_js (inject_state S) (inject_action E)
  = Returns (inject_state (calculatorReducer S E)).
Proof.
  unfold reducer_js.
  rewrite ToBoolean_operation, calculate_js_inject.
  destruct S as [cur prev op ow].
  destruct E as [d|o| | | |]; unfold calculatorReducer; js_values.
  - destruct ow; [reflexivity|].
    destruct (d =? "."); [destruct (includes cur ".")|];
      js_values; try reflexivity;
      destruct (cur =? "0"); reflexivity.
  - destruct ((cur =? "0") && (prev =? "")); [reflexivity|].
    destruct (prev =? ""); [reflexivity|].
    destruct (truthy op); reflexivity.
  - reflexivity.
  - destruct ow; [reflexivity|].
    destruct (String.length cur =? 1)%nat; reflexivity.
  - destruct op as [o|]; js_values; [|reflexivity].
    destruct ((prev =? "") || (cur =? "0")); reflexivity.
  - reflexivity.
Qed.

Lemma typed_state_inject (S : CalculatorState) :
  typed_state (inject_state S) = true.
Proof. destruct S as [cur prev [o|] ow]; reflexivity. Qed.

Lemma typed_state_is_inject (s : js_state) :
  typed_state s = true -> exists S, s = inject_state S.
Proof.
  destruct s as [c p o w]. unfold typed_state. cbn.
  destruct c as [| | | |cur]; try discriminate.
  destruct p as [| | | |prev]; try discriminate.
  destruct o as [| | | |op]; try discriminate;
    destruct w as [| |ow| |]; try discriminate; intros _.
  - now exists {| currentValue := cur; previousValue := prev;
                  operation := None; overwrite := ow |}.
  - now exists {| currentValue := cur; previousValue := prev;
                  operation := Some op; overwrite := ow |}.
Qed.

Lemma typed_action_is_inject (a : js_action) :
  typed_action a = true -> exists E, a = inject_action E.
Proof.
  destruct a as [t p]. unfold typed_action. cbn.
  destruct t as [| | | |t]; try discriminate.
  destruct p as [| | | |d]; try discriminate; intros H.
  - apply orb_true_iff in H as [H|H];
      [apply orb_true_iff in H as [H|H]|];
      apply string_eqb_true in H; subst t;
      [now exists CLEAR | now exists DELETE | now exists EVALUATE].
  - apply orb_true_iff in H as [H|H]; apply string_eqb_true in H; subst t;
      [now exists (ADD_DIGIT d) | now exists (CHOOSE_OPERATION d)].
Qed.

(** C6.  On every typed state and every typed action the reducer, run on
    the values of the language where a property can be undefined and a
    method call can throw, returns without throwing; what it returns is a
    typed state, no field undefined, namely the state [calculatorReducer]
    gives; and under each no-op guard it is the input state. *)
Theorem C6_total (s : js_state) (a : js_action) :
  typed_state s = true ->
  typed_action a = true ->
  exists S E s',
    s = inject_state S /\ a = inject_action E
    /\ reducer_js s a = Returns s'
    /\ typed_state s' = true
    /\ s' = inject_state (calculatorReducer S E)
    /\ (no_op_guard S E = true -> s' = s).
Proof.
  intros Hs Ha.
  destruct (typed_state_is_inject s Hs) as [S ->].
  destruct (typed_action_is_inject a Ha) as [E ->].
  exists S, E, (inject_state (calculatorReducer S E)).
  repeat split.
  - apply reducer_js_inject.
  - apply typed_state_inject.
  - intros G. now rewrite (no_op_guard_returns_state S E G).
Qed.

Lemma C6_total_witness :
  exists S E s',
    inject_state initialState = inject_state S
    /\ inject_action (CHOOSE_OPERATION op_plus) = inject_action E
    /\ reducer_js (inject_state initialState)
                  (inject_action (CHOOSE_OPERATION op_plus)) = Returns s'
    /\ typed_state s' = true
    /\ s' = inject_state (calculatorReducer S E)
    /\ (no_op_guard S E = true -> s' = inject_state initialState).
Proof.
  apply (C6_total (inject_state initialState)
                  (inject_action (CHOOSE_OPERATION op_plus)));
    reflexivity.
Defined.

(** Without the types the reducer can throw and can leave a field
    undefined: Delete on a state whose currentValue is missing, and a digit
    action without payload. *)
Example untyped_state_throws :
  reducer_js {| js_currentValue := VUndefined; js_previousValue := VString "";
                js_operation := VNull; js_overwrite := VBoolean false |}
             (inject_action DELETE)
  = Throws "TypeError".
Proof. reflexivity. Qed.

Example untyped_action_leaves_undefined :
  reducer_js (inject_state initialState)
             {| js_type := VString "ADD_DIGIT"; js_payload := VUndefined |}
  = Returns {| js_currentValue := VUndefined; js_previousValue := VString "";
               js_operation := VNull; js_overwrite := VBoolean false |}.
Proof. reflexivity. Qed.

(** ** Reading literals *)

Arguments is_digit : simpl never.
Arguments scan_sign : simpl never.

Lemma append_nil_r (s : string) : s ++ "" = s.
Proof. induction s as [|a s IH]; simpl; [reflexivity | now rewrite IH]. Qed.

Lemma append_assoc (a b c : string) : (a ++ b) ++ c = a ++ b ++ c.
Proof. induction a as [|x a IH]; simpl; [reflexivity | now rewrite IH]. Qed.

Lemma is_digit_neq (c d : ascii) :
  is_digit c = true -> is_digit d = false -> Ascii.eqb c d = false.
Proof.
  intros Hc Hd. destruct (Ascii.eqb_spec c d) as [->|]; congruence.
Qed.

Lemma all_digits_app (a b : string) :
  all_digits (a ++ b) = all_digits a && all_digits b.
Proof.
  induction a as [|x a IH]; simpl; [reflexivity|].
  now rewrite IH, andb_assoc.
Qed.

Lemma all_digits_repeat_0 (n : nat) : all_digits (repeat "0" n) = true.
Proof. induction n as [|n IH]; simpl; [reflexivity | exact IH]. Qed.

Lemma all_digits_substring (s : string) :
  all_digits s = true -> forall a b, all_digits (substring a b s) = true.
Proof.
  induction s as [|x s IH]; intros H a b.
  - destruct a, b; reflexivity.
  - simpl in H. apply andb_true_iff in H as [Hx Hs].
    destruct a as [|a]; [destruct b as [|b]|]; simpl.
    + reflexivity.
    + rewrite Hx. now apply IH.
    + now apply IH.
Qed.

Lemma span_digits_app (d r : string) :
  all_digits d = true ->
  (forall c t, r = String c t -> is_digit c = false) ->
  span_digits (d ++ r) = (d, r).
Proof.
  intros Hd Hr. induction d as [|x d IH]; simpl.
  - destruct r as [|c t]; [reflexivity|]. simpl.
    now rewrite (Hr c t eq_refl).
  - simpl in Hd. apply andb_true_iff in Hd as [Hx Hd].
    now rewrite Hx, (IH Hd).
Qed.

Lemma span_digits_all (d : string) :
  all_digits d = true -> span_digits d = (d, "").
Proof.
  intros Hd. rewrite <- (append_nil_r d) at 1.
  apply span_digits_app; [exact Hd | discriminate].
Qed.

Lemma scan_sign_unsigned (c : ascii) (t : string) :
  is_digit c = true \/ c = "."%char ->
  scan_sign (String c t) = (false, String c t).
Proof.
  intros [H| ->]; [|reflexivity].
  unfold scan_sign.
  now rewrite (is_digit_neq c "-" H eq_refl), (is_digit_neq c "+" H eq_refl).
Qed.

Lemma starts_with_Infinity_unsigned (c : ascii) (t : string) :
  is_digit c = true \/ c = "."%char ->
  starts_with (String c t) "Infinity" = false.
Proof.
  intros [H| ->]; [|reflexivity].
  cbn [starts_with]. now rewrite (is_digit_neq c "I" H eq_refl).
Qed.

Lemma exponent_part_head (r : string) :
  exponent_part r ->
  forall c t, r = String c t -> is_digit c = false /\ Ascii.eqb c "." = false.
Proof.
  intros [->|(sg & ed & -> & _)] c t E; [discriminate|].
  injection E as <- _. split; reflexivity.
Qed.

Lemma scan_exponent_part (r : string) :
  exponent_part r -> snd (scan_exponent r) = "".
Proof.
  intros [->|(sg & ed & -> & Hsg & Hed & Hne)]; [reflexivity|].
  unfold scan_exponent. cbn [Ascii.eqb Bool.eqb orb].
  assert (E : scan_sign (String sg ed) = (negb (Ascii.eqb sg "+"), ed))
    by (destruct Hsg as [->| ->]; reflexivity).
  rewrite E, (span_digits_all ed Hed).
  destruct ed; [contradiction | reflexivity].
Qed.

Lemma scan_fraction_none (ip r : string) :
  exponent_part r -> scan_fraction ip r = ("", r).
Proof.
  intros H. destruct r as [|c t]; [reflexivity|].
  unfold scan_fraction.
  now rewrite (proj2 (exponent_part_head _ H c t eq_refl)).
Qed.

Lemma scan_fraction_some (ip fp r : string) :
  all_digits fp = true ->
  ip <> "" \/ fp <> "" ->
  exponent_part r ->
  scan_fraction ip (String "." (fp ++ r)) = (fp, r).
Proof.
  intros Hfp Hne Hr. unfold scan_fraction. simpl.
  rewrite (span_digits_app fp r Hfp).
  - destruct ip; [|reflexivity].
    destruct fp; [|reflexivity].
    destruct Hne; contradiction.
  - intros c t E. apply (exponent_part_head r Hr c t E).
Qed.

(** Digits, then an exponent or nothing. *)
Lemma unsigned_literal_integer (ip r : string) :
  all_digits ip = true -> ip <> "" -> exponent_part r ->
  unsigned_literal (ip ++ r).
Proof.
  intros Hip Hne Hr neg. unfold scan_unsigned.
  destruct ip as [|c ip']; [contradiction|].
  assert (Hc : is_digit c = true) by (simpl in Hip; now apply andb_true_iff in Hip).
  change (String c ip' ++ r) with (String c (ip' ++ r)).
  rewrite (starts_with_Infinity_unsigned c _ (or_introl Hc)).
  change (String c (ip' ++ r)) with (String c ip' ++ r).
  rewrite (span_digits_app _ r Hip)
    by (intros c' t E; apply (exponent_part_head r Hr c' t E)).
  rewrite (scan_fraction_none _ r Hr).
  pose proof (scan_exponent_part r Hr) as Hex.
  destruct (scan_exponent r) as [ex r3]. simpl in Hex. subst r3.
  now exists (String c ip'), "", ex.
Qed.

(** Digits, a point, digits, then an exponent or nothing; one of the two
    runs of digits may be empty. *)
Lemma unsigned_literal_fraction (ip fp r : string) :
  all_digits ip = true -> all_digits fp = true ->
  ip <> "" \/ fp <> "" -> exponent_part r ->
  unsigned_literal (ip ++ String "." (fp ++ r)).
Proof.
  intros Hip Hfp Hne Hr neg. unfold scan_unsigned.
  assert (Hpre : starts_with (ip ++ String "." (fp ++ r)) "Infinity" = false).
  { destruct ip as [|c ip'].
    - apply starts_with_Infinity_unsigned. now right.
    - apply (starts_with_Infinity_unsigned c). left.
      simpl in Hip. now apply andb_true_iff in Hip. }
  rewrite Hpre.
  rewrite (span_digits_app ip _ Hip)
    by (intros c t E; injection E as <- _; reflexivity).
  rewrite (scan_fraction_some ip fp r Hfp Hne Hr).
  pose proof (scan_exponent_part r Hr) as Hex.
  destruct (scan_exponent r) as [ex r3]. simpl in Hex. subst r3.
  destruct ip as [|c ip'].
  - destruct fp as [|d fp']; [destruct Hne; contradiction|].
    now exists "", (String d fp'), ex.
  - now exists (String c ip'), fp, ex.
Qed.

(** An unsigned literal is a literal, with or without a minus sign. *)
Lemma numeric_literal_unsigned (c : ascii) (t : string) :
  is_digit c = true \/ c = "."%char ->
  unsigned_literal (String c t) ->
  numeric_literal (String c t) = true
  /\ numeric_literal (String "-" (String c t)) = true.
Proof.
  intros Hc Hu. unfold numeric_literal, scan_StrDecimalLiteral. split.
  - rewrite (scan_sign_unsigned c t Hc).
    destruct (Hu false) as (ip & fp & ex & ->). reflexivity.
  - simpl. destruct (Hu true) as (ip & fp & ex & ->). reflexivity.
Qed.

(** ** Printing numbers *)

Lemma digit_char_is_digit (d : Z) :
  (0 <= d < 10)%Z -> is_digit (digit_char d) = true.
Proof.
  intros H.
  assert (E : (d = 0 \/ d = 1 \/ d = 2 \/ d = 3 \/ d = 4 \/ d = 5 \/ d = 6
               \/ d = 7 \/ d = 8 \/ d = 9)%Z) by lia.
  repeat (destruct E as [->|E]; [reflexivity|]). now subst d.
Qed.

Lemma all_digits_digits_acc (k : nat) :
  forall (s : Z) (acc : string),
    all_digits acc = true -> all_digits (digits_acc k s acc) = true.
Proof.
  induction k as [|k IH]; intros s acc Hacc; simpl; [exact Hacc|].
  apply IH. simpl. rewrite Hacc, andb_true_r.
  apply digit_char_is_digit. apply Z.mod_pos_bound. lia.
Qed.

Lemma length_digits_acc (k : nat) :
  forall (s : Z) (acc : string),
    String.length (digits_acc k s acc) = (k + String.length acc)%nat.
Proof.
  induction k as [|k IH]; intros s acc; simpl; [reflexivity|].
  rewrite IH. simpl. lia.
Qed.

Lemma digits_acc_nonempty (k : nat) (s : Z) :
  (0 < k)%nat -> digits_acc k s "" <> "".
Proof.
  intros Hk E. pose proof (length_digits_acc k s "") as L.
  rewrite E in L. simpl in L. lia.
Qed.

Lemma decade_up_ge (fuel : nat) (num den : Z) :
  forall n, (n <= decade_up fuel num den n)%Z.
Proof.
  induction fuel as [|fuel IH]; intros n; simpl; [lia|].
  destruct (num <? den * 10 ^ n)%Z; [lia|].
  specialize (IH (n + 1)%Z). lia.
Qed.

Lemma shortest_ge (fuel : nat) (m : positive) (e n0 : Z) :
  forall k, (k <= snd (shortest fuel m e n0 k))%Z.
Proof.
  induction fuel as [|fuel IH]; intros k; simpl.
  - destruct (scaled m e (n0 - k)). simpl. lia.
  - destruct (candidate m e n0 k); simpl; [lia|].
    specialize (IH (k + 1)%Z). lia.
Qed.

Lemma numeral_digits (z : Z) :
  all_digits (numeral z) = true /\ numeral z <> "".
Proof.
  unfold numeral. split.
  - now apply all_digits_digits_acc.
  - apply digits_acc_nonempty.
    pose proof (decade_up_ge (S (Z.to_nat (Z.log2 z))) z 1 1). lia.
Qed.

Lemma shortest_digits_digits (m : positive) (e : Z) :
  all_digits (fst (shortest_digits m e)) = true
  /\ fst (shortest_digits m e) <> "".
Proof.
  unfold shortest_digits.
  pose proof (shortest_ge 16 m e (decade m e) 1) as Hk.
  destruct (shortest 16 m e (decade m e) 1) as [s k]. simpl in Hk.
  destruct (s =? 10 ^ k)%Z; simpl; split;
    solve [ now apply all_digits_digits_acc
          | apply digits_acc_nonempty; lia ].
Qed.

Lemma exponent_part_signed (e : Z) :
  exponent_part
    ("e" ++ (if (e <? 0)%Z then "-" else "+") ++ numeral (Z.abs e)).
Proof.
  right. destruct (numeral_digits (Z.abs e)) as [Hd Hn].
  exists (if (e <? 0)%Z then "-"%char else "+"%char), (numeral (Z.abs e)).
  repeat split; try assumption; destruct (e <? 0)%Z; auto.
Qed.

Lemma substring_0_nonempty (n : nat) (s : string) :
  (0 < n)%nat -> s <> "" -> substring 0 n s <> "".
Proof.
  intros Hn Hs. destruct n as [|n]; [lia|].
  destruct s as [|c t]; [contradiction | discriminate].
Qed.

(** The decimal form of a number is an unsigned literal starting with a
    digit. *)
Lemma format_decimal_literal (ds : string) (n : Z) :
  all_digits ds = true -> ds <> "" ->
  unsigned_literal (format_decimal ds n)
  /\ exists c t, format_decimal ds n = String c t /\ is_digit c = true.
Proof.
  intros Hd Hne. unfold format_decimal.
  set (k := Z.of_nat (String.length ds)).
  assert (Hhead : exists c t, ds = String c t /\ is_digit c = true).
  { destruct ds as [|c t]; [contradiction|].
    exists c, t. split; [reflexivity|].
    simpl in Hd. now apply andb_true_iff in Hd. }
  destruct Hhead as (c & t & Eds & Hc).
  destruct ((k <=? n)%Z && (n <=? 21)%Z).
  { split.
    - rewrite <- (append_nil_r (ds ++ _)).
      apply unsigned_literal_integer.
      + now rewrite all_digits_app, Hd, all_digits_repeat_0.
      + rewrite Eds. discriminate.
      + now left.
    - rewrite Eds. simpl. eauto. }
  destruct ((0 <? n)%Z && (n <=? 21)%Z) eqn:Hb.
  { apply andb_true_iff in Hb as [Hn _]. apply Z.ltb_lt in Hn.
    assert (Hpos : (0 < Z.to_nat n)%nat) by lia.
    split.
    - change (substring 0 (Z.to_nat n) ds ++ "."
                ++ substring (Z.to_nat n) (Z.to_nat (k - n)) ds)
        with (substring 0 (Z.to_nat n) ds
                ++ String "." (substring (Z.to_nat n) (Z.to_nat (k - n)) ds)).
      rewrite <- (append_nil_r (substring (Z.to_nat n) _ ds)).
      apply unsigned_literal_fraction.
      + now apply all_digits_substring.
      + now apply all_digits_substring.
      + left. now apply substring_0_nonempty.
      + now left.
    - rewrite Eds. destruct (Z.to_nat n) as [|n']; [lia|].
      simpl. eauto. }
  destruct ((-6 <? n)%Z && (n <=? 0)%Z).
  { split.
    - change ("0." ++ repeat "0" (Z.to_nat (- n)) ++ ds)
        with ("0" ++ String "." (repeat "0" (Z.to_nat (- n)) ++ ds)).
      rewrite <- (append_nil_r (repeat "0" _ ++ ds)).
      apply unsigned_literal_fraction.
      + reflexivity.
      + now rewrite all_digits_app, Hd, all_digits_repeat_0.
      + left. discriminate.
      + now left.
    - exists "0"%char. eexists. split; reflexivity. }
  pose proof (exponent_part_signed (n - 1)) as Hex.
  set (es := (if (n - 1 <? 0)%Z then "-" else "+") ++ numeral (Z.abs (n - 1))) in *.
  rewrite Eds. rewrite Eds in Hd. simpl in Hd.
  apply andb_true_iff in Hd as [_ Ht].
  destruct t as [|c' t'].
  - split; [|simpl; eauto].
    change (String c "e" ++ es) with (String c "" ++ ("e" ++ es)).
    apply unsigned_literal_integer; [|discriminate|exact Hex].
    simpl. now rewrite Hc.
  - split; [|simpl; eauto].
    change (String c "." ++ String c' t' ++ "e" ++ es)
      with (String c "" ++ String "." (String c' t' ++ ("e" ++ es))).
    apply unsigned_literal_fraction; [|exact Ht| |exact Hex].
    + simpl. now rewrite Hc.
    + left. discriminate.
Qed.

(** What [toString] prints is a display value. *)
Lemma display_value_toString (x : number) : display_value (toString x) = true.
Proof.
  destruct x as [s|s| |s m e]; try reflexivity.
  - destruct s; reflexivity.
  - unfold toString.
    destruct (shortest_digits_digits m e) as [Hd Hn].
    destruct (shortest_digits m e) as [ds n]. simpl in Hd, Hn.
    destruct (format_decimal_literal ds n Hd Hn) as [Hu (c & t & E & Hc)].
    rewrite E in *.
    destruct (numeric_literal_unsigned c t (or_introl Hc) Hu) as [H1 H2].
    unfold display_value. destruct s; simpl append.
    + now rewrite H2.
    + now rewrite H1.
Qed.

(** What [calculate] returns is a display value. *)
Lemma display_value_calculate (S : CalculatorState) :
  display_value (calculate S) = true.
Proof.
  unfold calculate.
  destruct (isNaN _ || isNaN _); [reflexivity|].
  destruct (operation S) as [op|]; [|reflexivity].
  repeat match goal with
         | |- context [if ?b then _ else _] => destruct b
         end;
    try reflexivity; apply display_value_toString.
Qed.

(** ** What is typed on the keys *)

Lemma span_digits_spec (s : string) :
  s = fst (span_digits s) ++ snd (span_digits s)
  /\ all_digits (fst (span_digits s)) = true
  /\ (forall c t, snd (span_digits s) = String c t -> is_digit c = false).
Proof.
  induction s as [|a s (IH1 & IH2 & IH3)]; simpl.
  - repeat split. discriminate.
  - destruct (is_digit a) eqn:Ha.
    + destruct (span_digits s) as [d r]. simpl in *.
      repeat split; [now rewrite <- IH1 | now rewrite Ha | exact IH3].
    + simpl. repeat split. intros c t E. injection E as <- _. exact Ha.
Qed.

Lemma entry_chars_app (a b : string) :
  entry_chars (a ++ b) = entry_chars a && entry_chars b.
Proof.
  induction a as [|x a IH]; simpl; [reflexivity|].
  now rewrite IH, andb_assoc.
Qed.

Lemma count_points_app (a b : string) :
  count_points (a ++ b) = (count_points a + count_points b)%nat.
Proof.
  induction a as [|x a IH]; simpl; [reflexivity|]. rewrite IH. lia.
Qed.

Lemma count_points_digits (d : string) :
  all_digits d = true -> count_points d = 0%nat.
Proof.
  induction d as [|x d IH]; simpl; [reflexivity|].
  intros H. apply andb_true_iff in H as [Hx Hd].
  now rewrite (is_digit_neq x "." Hx eq_refl), (IH Hd).
Qed.

Lemma entry_chars_no_point (s : string) :
  entry_chars s = true -> count_points s = 0%nat -> all_digits s = true.
Proof.
  induction s as [|x s IH]; simpl; [reflexivity|].
  intros H Hc. apply andb_true_iff in H as [Hx Hs].
  destruct (Ascii.eqb x "."); [discriminate Hc|].
  rewrite orb_false_r in Hx. rewrite Hx. now apply IH.
Qed.

Lemma includes_point (s : string) :
  includes s "." = false <-> count_points s = 0%nat.
Proof.
  induction s as [|x s IH]; simpl; [tauto|].
  destruct (Ascii.eqb x "."); simpl; [split; [discriminate | lia] | exact IH].
Qed.

Lemma string_snoc (s : string) :
  s <> "" -> exists t c, s = t ++ String c "".
Proof.
  induction s as [|a s IH]; intros H; [contradiction|].
  destruct s as [|b s'].
  - now exists "", a.
  - destruct IH as (t & c & E); [discriminate|].
    exists (String a t), c. simpl. now rewrite <- E.
Qed.

(** What is typed is a literal, or the lone point. *)
Lemma entry_display_value (s : string) :
  entry s = true -> display_value s = true.
Proof.
  unfold entry. intros H.
  apply andb_true_iff in H as [H Hcount].
  apply andb_true_iff in H as [Hne Hchars].
  apply Nat.leb_le in Hcount.
  apply negb_true_iff, string_eqb_false in Hne.
  destruct (span_digits_spec s) as (E & Hd & Hr).
  destruct (span_digits s) as [d r]. simpl in E, Hd, Hr.
  rewrite E in Hchars, Hcount.
  rewrite entry_chars_app in Hchars. apply andb_true_iff in Hchars as [_ Hrc].
  rewrite count_points_app, (count_points_digits d Hd) in Hcount.
  assert (Hlit : forall c t, s = String c t ->
                   is_digit c = true \/ c = "."%char ->
                   unsigned_literal s -> display_value s = true).
  { intros c t -> Hc Hu.
    destruct (numeric_literal_unsigned c t Hc Hu) as [H1 _].
    unfold display_value. now rewrite H1. }
  destruct r as [|x r'].
  - rewrite append_nil_r in E. subst d.
    destruct s as [|c t]; [contradiction|].
    apply (Hlit c t eq_refl).
    + left. simpl in Hd. now apply andb_true_iff in Hd.
    + rewrite <- (append_nil_r (String c t)).
      apply unsigned_literal_integer; [exact Hd | discriminate | now left].
  - pose proof (Hr x r' eq_refl) as Hx.
    simpl in Hrc. apply andb_true_iff in Hrc as [Hxc Hr'c].
    rewrite Hx in Hxc. simpl in Hxc.
    apply Ascii.eqb_eq in Hxc. subst x. simpl in Hcount.
    assert (Hr'd : all_digits r' = true)
      by (apply entry_chars_no_point; [exact Hr'c | lia]).
    destruct d as [|c d'].
    + destruct r' as [|c' r''].
      * subst s. reflexivity.
      * apply (Hlit "."%char (String c' r'') E); [now right|].
        rewrite E. rewrite <- (append_nil_r (String c' r'')).
        apply (unsigned_literal_fraction "" (String c' r'') "");
          [reflexivity | exact Hr'd | right; discriminate | now left].
    + apply (Hlit c (d' ++ String "." r') E).
      * left. simpl in Hd. now apply andb_true_iff in Hd.
      * rewrite E. rewrite <- (append_nil_r r').
        apply unsigned_literal_fraction;
          [exact Hd | exact Hr'd | left; discriminate | now left].
Qed.

Lemma digit_key_char (d : string) :
  digit_key d = true ->
  exists c, d = String c "" /\ is_digit c || Ascii.eqb c "." = true
            /\ (d =? ".") = Ascii.eqb c ".".
Proof.
  destruct d as [|c [|c' d']]; try discriminate.
  intros H. exists c. repeat split; [exact H|].
  simpl. now destruct (Ascii.eqb c ".").
Qed.

Lemma entry_key (c : ascii) :
  is_digit c || Ascii.eqb c "." = true -> entry (String c "") = true.
Proof.
  intros H. unfold entry. simpl. rewrite H.
  now destruct (Ascii.eqb c ".").
Qed.

Lemma entry_append_key (cur : string) (c : ascii) :
  entry cur = true ->
  is_digit c || Ascii.eqb c "." = true ->
  Ascii.eqb c "." && includes cur "." = false ->
  entry (cur ++ String c "") = true.
Proof.
  unfold entry. intros H Hc Hp.
  apply andb_true_iff in H as [H Hcount].
  apply andb_true_iff in H as [Hne Hchars].
  apply Nat.leb_le in Hcount.
  rewrite entry_chars_app, Hchars, count_points_app. simpl.
  rewrite Hc. simpl.
  replace (cur ++ String c "" =? "") with false
    by (symmetry; apply string_eqb_false; destruct cur; discriminate).
  simpl. apply Nat.leb_le.
  destruct (Ascii.eqb c "."); simpl in *; [|lia].
  apply includes_point in Hp. lia.
Qed.

Lemma entry_slice (cur : string) :
  entry cur = true ->
  String.length cur <> 1%nat ->
  entry (slice_0_m1 cur) = true.
Proof.
  unfold entry. intros H Hlen.
  apply andb_true_iff in H as [H Hcount].
  apply andb_true_iff in H as [Hne Hchars].
  apply Nat.leb_le in Hcount.
  apply negb_true_iff, string_eqb_false in Hne.
  destruct (string_snoc cur Hne) as (t & c & ->).
  rewrite slice_0_m1_snoc. rewrite length_snoc in Hlen.
  rewrite entry_chars_app in Hchars. apply andb_true_iff in Hchars as [Ht _].
  rewrite count_points_app in Hcount.
  rewrite Ht.
  replace (t =? "") with false
    by (symmetry; apply string_eqb_false; destruct t; [simpl in Hlen; lia | discriminate]).
  simpl. apply Nat.leb_le. lia.
Qed.

(** ** The states of a session *)

Lemma display_invariant_initial : display_invariant initialState.
Proof.
  split; [reflexivity|]. split; [now left | discriminate].
Qed.

Ltac display_invariant_cases :=
  split; [|split]; simpl;
  solve [ assumption
        | reflexivity
        | discriminate
        | now left
        | now right
        | intros _; assumption
        | now apply entry_display_value
        | apply display_value_calculate
        | right; apply display_value_calculate ].

Lemma display_invariant_step (s : CalculatorState) (a : CalculatorAction) :
  display_invariant s -> ui_event a = true ->
  display_invariant (calculatorReducer s a).
Proof.
  intros (Hcur & Hprev & Hentry) Ha.
  destruct s as [cur prev op ow]. simpl in Hcur, Hprev, Hentry.
  destruct a as [d|o| | | |]; simpl in Ha.
  - (* ADD_DIGIT *)
    destruct (digit_key_char d Ha) as (c & -> & Hc & Hpt).
    unfold calculatorReducer, overwrite, currentValue, previousValue, operation.
    destruct ow.
    + pose proof (entry_key c Hc) as He. display_invariant_cases.
    + specialize (Hentry eq_refl). rewrite Hpt.
      destruct (Ascii.eqb c "." && includes cur ".") eqn:Hdup.
      * display_invariant_cases.
      * assert (He : entry (if (cur =? "0") && negb (Ascii.eqb c ".")
                            then String c "" else cur ++ String c "") = true).
        { destruct ((cur =? "0") && negb (Ascii.eqb c "."));
            [now apply entry_key | now apply entry_append_key]. }
        display_invariant_cases.
  - (* CHOOSE_OPERATION *)
    unfold calculatorReducer, overwrite, currentValue, previousValue, operation.
    destruct ((cur =? "0") && (prev =? "")); [display_invariant_cases|].
    destruct (prev =? ""); [display_invariant_cases|].
    destruct (truthy op); display_invariant_cases.
  - (* CLEAR *)
    apply display_invariant_initial.
  - (* DELETE *)
    unfold calculatorReducer, overwrite, currentValue, previousValue, operation.
    destruct ow; [display_invariant_cases|].
    specialize (Hentry eq_refl).
    destruct (String.length cur =? 1)%nat eqn:Hlen; [display_invariant_cases|].
    apply Nat.eqb_neq in Hlen.
    pose proof (entry_slice cur Hentry Hlen) as He.
    display_invariant_cases.
  - (* EVALUATE *)
    unfold calculatorReducer, overwrite, currentValue, previousValue, operation.
    destruct op as [o|]; [|display_invariant_cases].
    destruct ((prev =? "") || (cur =? "0")); display_invariant_cases.
  - discriminate Ha.
Qed.

Lemma display_invariant_reachable (s : CalculatorState) :
  reachable s -> display_invariant s.
Proof.
  induction 1 as [|s a _ IH Ha].
  - apply display_invariant_initial.
  - now apply display_invariant_step.
Qed.

(** C2, as amended.  In every reachable state currentValue is a decimal
    literal (an optional sign, digits with an optional point, an optional
    exponent) or one of ".", "Error", "NaN", "Infinity", "-Infinity";
    previousValue is empty or such a value; and outside overwrite mode
    currentValue is made of digits and at most one point. *)
Theorem C2_reachable_values (s : CalculatorState) :
  reachable s ->
  display_value (currentValue s) = true
  /\ (previousValue s = "" \/ display_value (previousValue s) = true)
  /\ (overwrite s = false -> entry (currentValue s) = true).
Proof. apply display_invariant_reachable. Qed.

Lemma C2_reachable_values_witness :
  display_value "." = true
  /\ ("" = "" \/ display_value "" = true)
  /\ (false = false -> entry "." = true).
Proof.
  apply (C2_reachable_values (calculatorReducer initialState (ADD_DIGIT "."))).
  apply reachable_step; [apply reachable_init | reflexivity].
Defined.

(** C2 as stated fails: after the point key alone currentValue is ".",
    which is no numeric literal, not "Error" and not "0". *)
Lemma C2_counterexample :
  ~ (forall s : CalculatorState,
        reachable s ->
        spec_currentValue (currentValue s) = true
        /\ spec_previousValue (previousValue s) = true).
Proof.
  intros H.
  destruct (H (calculatorReducer initialState (ADD_DIGIT "."))) as [Hc _].
  - apply reachable_step; [apply reachable_init | reflexivity].
  - discriminate Hc.
Qed.

(** The values beyond the literals are reached: an operand too large for
    a number reads as Infinity, and the difference of two of them is not a
    number. *)
Example currentValue_Infinity :
  currentValue
    (run (long_entry ++ [CHOOSE_OPERATION op_times; ADD_DIGIT "1"; EVALUATE]))
  = "Infinity".
Proof. vm_compute. reflexivity. Qed.

Example currentValue_NaN :
  currentValue
    (run (long_entry ++ [CHOOSE_OPERATION op_minus] ++ long_entry ++ [EVALUATE]))
  = "NaN".
Proof. vm_compute. reflexivity. Qed.

Example currentValue_minus_Infinity :
  currentValue
    (run ([ADD_DIGIT "1"; CHOOSE_OPERATION op_minus; ADD_DIGIT "2"; EVALUATE;
           CHOOSE_OPERATION op_times] ++ long_entry ++ [EVALUATE]))
  = "-Infinity".
Proof. vm_compute. reflexivity. Qed.

(** The left operand can be the error marker. *)
Example previousValue_Error :
  let s := run [ADD_DIGIT "5"; CHOOSE_OPERATION op_divide; ADD_DIGIT "0";
                CHOOSE_OPERATION op_plus] in
  previousValue s = "Error" /\ spec_previousValue (previousValue s) = false.
Proof. vm_compute. split; reflexivity. Qed.

(** * Further properties of the reducer *)

(** ** Evaluate *)

(** A second Evaluate changes nothing: after an evaluation no operation is
    pending, and a state that Evaluate leaves alone is left alone again. *)
Theorem evaluate_idempotent (S : CalculatorState) :
  calculatorReducer (calculatorReducer S EVALUATE) EVALUATE
  = calculatorReducer S EVALUATE.
Proof.
  assert (H : calculatorReducer S EVALUATE = S
              \/ operation (calculatorReducer S EVALUATE) = None).
  { destruct S as [cur prev [o|] ow]; unfold calculatorReducer;
      cbn [operation previousValue currentValue]; [|now left].
    destruct ((prev =? "") || (cur =? "0")); [now left | now right]. }
  destruct H as [H|H]; [now rewrite H|].
  destruct (calculatorReducer S EVALUATE) as [c p o w].
  cbn [operation] in H. subst o. reflexivity.
Qed.

(** ** Delete *)

Lemma delete_times_S (n : nat) (S : CalculatorState) :
  delete_times (Datatypes.S n) S = delete_times n (calculatorReducer S DELETE).
Proof.
  unfold delete_times. apply Nat.iter_succ_r.
Qed.

Lemma delete_times_reset (n : nat) (prev : string) (op : option string) :
  delete_times n {| currentValue := "0"; previousValue := prev;
                    operation := op; overwrite := true |}
  = {| currentValue := "0"; previousValue := prev;
       operation := op; overwrite := true |}.
Proof.
  induction n as [|n IH]; [reflexivity|].
  now rewrite delete_times_S.
Qed.

Lemma length_slice_0_m1 (s : string) :
  String.length (slice_0_m1 s) = (String.length s - 1)%nat.
Proof.
  destruct s as [|a s]; [reflexivity|].
  destruct (string_snoc (String a s)) as (t & c & E); [discriminate|].
  rewrite E, slice_0_m1_snoc, length_snoc. lia.
Qed.

(** Delete pressed as many times as currentValue has characters, or more,
    ends on "0" in overwrite mode with the pending operation untouched,
    from any state whose currentValue is not empty or whose overwrite flag
    is set.  The empty currentValue outside overwrite mode is left as it
    is. *)
Theorem delete_reaches_zero :
  (forall (n : nat) (S : CalculatorState),
      currentValue S <> "" \/ overwrite S = true ->
      (1 <= n)%nat ->
      (String.length (currentValue S) <= n)%nat ->
      delete_times n S
      = {| currentValue := "0"; previousValue := previousValue S;
           operation := operation S; overwrite := true |})
  /\ (forall (n : nat) (prev : string) (op : option string),
         delete_times n {| currentValue := ""; previousValue := prev;
                           operation := op; overwrite := false |}
         = {| currentValue := ""; previousValue := prev;
              operation := op; overwrite := false |}).
Proof.
  split.
  - induction n as [|n IH]; intros [cur prev op ow] Hne Hn Hlen; [lia|].
    cbn [currentValue previousValue operation overwrite] in *.
    rewrite delete_times_S. unfold calculatorReducer.
    cbn [currentValue previousValue operation overwrite].
    destruct ow; [apply delete_times_reset|].
    destruct (String.length cur =? 1)%nat eqn:L; [apply delete_times_reset|].
    apply Nat.eqb_neq in L.
    destruct Hne as [Hne|Hne]; [|discriminate Hne].
    assert (2 <= String.length cur)%nat
      by (destruct cur as [|a [|b r]]; simpl in *; [contradiction | lia | lia]).
    rewrite (IH {| currentValue := slice_0_m1 cur; previousValue := prev;
                   operation := op; overwrite := false |});
      cbn [currentValue previousValue operation overwrite].
    + reflexivity.
    + left. intros E. pose proof (length_slice_0_m1 cur) as Hl.
      rewrite E in Hl. simpl in Hl. lia.
    + lia.
    + rewrite length_slice_0_m1. lia.
  - induction n as [|n IH]; intros prev op; [reflexivity|].
    rewrite delete_times_S. apply IH.
Qed.

Lemma delete_reaches_zero_witness :
  delete_times 3 {| currentValue := "1.5"; previousValue := "7";
                    operation := Some op_plus; overwrite := false |}
  = {| currentValue := "0"; previousValue := "7";
       operation := Some op_plus; overwrite := true |}.
Proof.
  apply (proj1 delete_reaches_zero 3%nat).
  - left. discriminate.
  - lia.
  - simpl. lia.
Defined.

(** Delete never empties the display: a currentValue that is not empty is
    not empty afterwards. *)
Theorem delete_keeps_nonempty (S : CalculatorState) :
  currentValue S <> "" ->
  currentValue (calculatorReducer S DELETE) <> "".
Proof.
  destruct S as [cur prev op ow]. cbn [currentValue]. intros Hne.
  unfold calculatorReducer. cbn [currentValue previousValue operation overwrite].
  destruct ow; [discriminate|].
  destruct (String.length cur =? 1)%nat eqn:L; [discriminate|].
  apply Nat.eqb_neq in L. cbn [currentValue]. intros E.
  pose proof (length_slice_0_m1 cur) as Hl. rewrite E in Hl. simpl in Hl.
  destruct cur as [|a [|b r]]; simpl in *; [contradiction | lia | lia].
Qed.

Lemma delete_keeps_nonempty_witness :
  currentValue
    (calculatorReducer
       {| currentValue := "12"; previousValue := "";
          operation := None; overwrite := false |} DELETE) <> "".
Proof.
  apply delete_keeps_nonempty. discriminate.
Defined.

(** ** Sessions *)

Lemma display_value_nonempty (v : string) : display_value v = true -> v <> "".
Proof. intros H ->. discriminate H. Qed.

Lemma calculate_nonempty (S : CalculatorState) : calculate S <> "".
Proof. apply display_value_nonempty, display_value_calculate. Qed.

Lemma operator_key_truthy (o : string) :
  operator_key o = true -> truthy (Some o) = true.
Proof. destruct o; [discriminate | reflexivity]. Qed.

Lemma pending_invariant_step (S : CalculatorState) (a : CalculatorAction) :
  reachable S -> pending_invariant S -> ui_event a = true ->
  pending_invariant (calculatorReducer S a).
Proof.
  intros HR [Hiff Hop] Ha.
  destruct (display_invariant_reachable S HR) as (Hcur & _ & _).
  apply display_value_nonempty in Hcur.
  pose proof (calculate_nonempty S) as Hcalc.
  destruct S as [cur prev op ow].
  cbn [currentValue previousValue operation overwrite] in *.
  assert (Hsame : pending_invariant
                    {| currentValue := cur; previousValue := prev;
                       operation := op; overwrite := ow |})
    by (split; assumption).
  assert (Hdigit : forall c w,
             pending_invariant
               {| currentValue := c; previousValue := prev;
                  operation := op; overwrite := w |})
    by (intros c w; split; assumption).
  destruct a as [d|o| | | |]; cbn [ui_event] in Ha;
    unfold calculatorReducer;
    cbn [currentValue previousValue operation overwrite].
  - destruct ow; [apply Hdigit|].
    destruct ((d =? ".") && includes cur "."); [exact Hsame | apply Hdigit].
  - destruct ((cur =? "0") && (prev =? "")); [exact Hsame|].
    destruct (prev =? "").
    + split; cbn [operation previousValue].
      * split; [discriminate | intros E; contradiction].
      * intros o' E. injection E as <-. exact Ha.
    + destruct (truthy op); [|exact Hsame].
      split; cbn [operation previousValue].
      * split; [discriminate | intros E; contradiction].
      * intros o' E. injection E as <-. exact Ha.
  - split; cbn; [tauto | discriminate].
  - destruct ow; [apply Hdigit|].
    destruct (String.length cur =? 1)%nat; apply Hdigit.
  - destruct op as [o|]; [|exact Hsame].
    destruct ((prev =? "") || (cur =? "0")); [exact Hsame|].
    split; cbn; [tauto | discriminate].
  - discriminate Ha.
Qed.

Lemma pending_invariant_reachable (S : CalculatorState) :
  reachable S -> pending_invariant S.
Proof.
  induction 1 as [|S a HR IH Ha].
  - split; cbn; [tauto | discriminate].
  - now apply pending_invariant_step.
Qed.

(** In every reachable state a left operand is held exactly when an
    operator is pending, the pending operator is one of the four symbols,
    and so choosing an operator while a left operand is held always
    evaluates the pending operation: the last [return state] of the
    CHOOSE_OPERATION case is never reached. *)
Theorem pending_operation_in_sessions (S : CalculatorState) :
  reachable S ->
  (operation S = None <-> previousValue S = "")
  /\ (forall o, operation S = Some o -> operator_key o = true)
  /\ (previousValue S <> "" ->
      forall o',
        calculatorReducer S (CHOOSE_OPERATION o')
        = {| currentValue := "0"; previousValue := calculate S;
             operation := Some o'; overwrite := true |}).
Proof.
  intros HR. destruct (pending_invariant_reachable S HR) as [Hiff Hop].
  split; [exact Hiff|]. split; [exact Hop|].
  intros Hp o'. unfold calculatorReducer.
  destruct (operation S) as [o|] eqn:Eo.
  - rewrite (operator_key_truthy o (Hop o eq_refl)).
    apply string_eqb_false in Hp. rewrite Hp. now rewrite andb_false_r.
  - exfalso. apply Hp. now apply Hiff.
Qed.

Lemma pending_operation_in_sessions_witness :
  calculatorReducer
    (run [ADD_DIGIT "2"; CHOOSE_OPERATION op_plus; ADD_DIGIT "3"])
    (CHOOSE_OPERATION op_times)
  = {| currentValue := "0"; previousValue := "5";
       operation := Some op_times; overwrite := true |}.
Proof.
  refine (proj2 (proj2 (pending_operation_in_sessions
                          (run [ADD_DIGIT "2"; CHOOSE_OPERATION op_plus;
                                ADD_DIGIT "3"]) _)) _ _).
  - repeat (apply reachable_step; [|reflexivity]). apply reachable_init.
  - discriminate.
Defined.

Lemma leading_zero_app (t u : string) :
  leading_zero t = true -> leading_zero (t ++ u) = true.
Proof. destruct t as [|a [|b r]]; simpl; intros H; [discriminate | discriminate | exact H]. Qed.

Lemma leading_zero_slice (cur : string) :
  leading_zero cur = false -> leading_zero (slice_0_m1 cur) = false.
Proof.
  intros H. destruct cur as [|a s]; [reflexivity|].
  destruct (string_snoc (String a s)) as (t & c & E); [discriminate|].
  rewrite E in *. rewrite slice_0_m1_snoc.
  destruct (leading_zero t) eqn:L; [|reflexivity].
  now rewrite (leading_zero_app t _ L) in H.
Qed.

Lemma leading_zero_key (cur : string) (c : ascii) :
  leading_zero cur = false ->
  (cur =? "0") && negb (Ascii.eqb c ".") = false ->
  leading_zero (cur ++ String c "") = false.
Proof.
  intros H G. destruct cur as [|a [|b r]]; [reflexivity | | exact H].
  cbn [append leading_zero].
  destruct (Ascii.eqb_spec a "0") as [->|]; [|reflexivity].
  cbn in G. apply negb_false_iff, Ascii.eqb_eq in G. subst c. reflexivity.
Qed.

(** Outside overwrite mode the currentValue of a reachable state never
    has a zero in front of another digit. *)
Theorem typed_value_has_no_leading_zero (S : CalculatorState) :
  reachable S ->
  overwrite S = false ->
  leading_zero (currentValue S) = false.
Proof.
  induction 1 as [|S a HR IH Ha]; [discriminate|].
  destruct S as [cur prev op ow].
  cbn [currentValue overwrite] in IH.
  destruct a as [d|o| | | |]; cbn [ui_event] in Ha;
    unfold calculatorReducer;
    cbn [currentValue previousValue operation overwrite].
  - destruct (digit_key_char d Ha) as (c & -> & Hc & Hpt).
    destruct ow; [reflexivity|]. rewrite Hpt.
    destruct (Ascii.eqb c "." && includes cur "."); [exact IH|].
    cbn [currentValue overwrite]. intros _.
    destruct ((cur =? "0") && negb (Ascii.eqb c ".")) eqn:G; [reflexivity|].
    now apply leading_zero_key; [apply IH|].
  - destruct ((cur =? "0") && (prev =? "")); [exact IH|].
    destruct (prev =? ""); [discriminate|].
    destruct (truthy op); [discriminate | exact IH].
  - discriminate.
  - destruct ow; [discriminate|].
    destruct (String.length cur =? 1)%nat; [discriminate|].
    cbn [currentValue overwrite]. intros _.
    now apply leading_zero_slice, IH.
  - destruct op as [o|]; [|exact IH].
    destruct ((prev =? "") || (cur =? "0")); [exact IH | discriminate].
  - discriminate Ha.
Qed.

Lemma typed_value_has_no_leading_zero_witness :
  leading_zero
    (currentValue (run [ADD_DIGIT "0"; ADD_DIGIT "0"; ADD_DIGIT "7"])) = false.
Proof.
  apply typed_value_has_no_leading_zero.
  - repeat (apply reachable_step; [|reflexivity]). apply reachable_init.
  - reflexivity.
Defined.

(** A value of a reachable state that is not made of digits and at most
    one point (a negative or exponent result, "Error", "NaN", an infinity)
    is shown in overwrite mode: the next digit key replaces it and Delete
    resets it to "0", neither edits it. *)
Theorem result_is_not_edited (S : CalculatorState) :
  reachable S ->
  entry (currentValue S) = false ->
  overwrite S = true
  /\ (forall d, currentValue (calculatorReducer S (ADD_DIGIT d)) = d)
  /\ currentValue (calculatorReducer S DELETE) = "0".
Proof.
  intros HR He.
  destruct (display_invariant_reachable S HR) as (_ & _ & Hentry).
  assert (Hov : overwrite S = true).
  { destruct (overwrite S); [reflexivity|].
    rewrite (Hentry eq_refl) in He. discriminate He. }
  split; [exact Hov|].
  unfold calculatorReducer. rewrite Hov. split; reflexivity.
Qed.

Lemma result_is_not_edited_witness :
  currentValue
    (calculatorReducer
       (run [ADD_DIGIT "5"; CHOOSE_OPERATION op_divide; ADD_DIGIT "0";
             ADD_DIGIT "."; EVALUATE]) DELETE) = "0".
Proof.
  refine (proj2 (proj2 (result_is_not_edited
                          (run [ADD_DIGIT "5"; CHOOSE_OPERATION op_divide;
                                ADD_DIGIT "0"; ADD_DIGIT "."; EVALUATE])
                          _ _))).
  - repeat (apply reachable_step; [|reflexivity]). apply reachable_init.
  - vm_compute. reflexivity.
Defined.

(** ** The evaluator on its operands *)

Arguments toString : simpl never.
Arguments parseFloat : simpl never.

Lemma SFadd_comm (x y : number) : add x y = add y x.
Proof.
  unfold add.
  destruct x as [sx|sx| |sx mx ex], y as [sy|sy| |sy my ey];
    try reflexivity; try (destruct sx, sy; reflexivity).
  unfold SFadd. cbv zeta.
  now rewrite (Z.min_comm ey ex), Z.add_comm.
Qed.

Lemma SFmul_comm (x y : number) : mul x y = mul y x.
Proof.
  unfold mul.
  destruct x as [sx|sx| |sx mx ex], y as [sy|sy| |sy my ey];
    try reflexivity; try (destruct sx, sy; reflexivity).
  unfold SFmul.
  now rewrite (xorb_comm sy sx), (Pos.mul_comm my mx), (Z.add_comm ey ex).
Qed.

(** Addition and multiplication do not depend on the order of the
    operands: exchanging previousValue and currentValue gives the same
    result. *)
Theorem calculate_commutes (S S' : CalculatorState) :
  currentValue S' = previousValue S ->
  previousValue S' = currentValue S ->
  operation S' = operation S ->
  operation S = Some op_plus \/ operation S = Some op_times ->
  calculate S' = calculate S.
Proof.
  intros Hc Hp Ho Hop. unfold calculate. rewrite Hc, Hp, Ho.
  rewrite (orb_comm (isNaN (parseFloat (currentValue S)))).
  destruct (isNaN (parseFloat (previousValue S))
            || isNaN (parseFloat (currentValue S))); [reflexivity|].
  destruct Hop as [-> | ->].
  - cbn. now rewrite SFadd_comm.
  - cbn. now rewrite SFmul_comm.
Qed.

Lemma calculate_commutes_witness :
  calculate (operands op_times "0.1" "3")
  = calculate (operands op_times "3" "0.1").
Proof.
  apply calculate_commutes; try reflexivity. now right.
Defined.

Lemma toString_head (x : number) :
  exists c t,
    toString x = String c t
    /\ (is_digit c = true \/ c = "-"%char \/ c = "N"%char \/ c = "I"%char).
Proof.
  destruct x as [s|s| |s m e].
  - exists "0"%char, "". split; [reflexivity | now left].
  - destruct s; [exists "-"%char, "Infinity" | exists "I"%char, "nfinity"];
      split; try reflexivity; tauto.
  - exists "N"%char, "aN". split; [reflexivity | tauto].
  - unfold toString.
    destruct (shortest_digits_digits m e) as [Hd Hn].
    destruct (shortest_digits m e) as [ds n]. cbn [fst] in Hd, Hn.
    destruct (format_decimal_literal ds n Hd Hn) as [_ (c & t & E & Hc)].
    rewrite E. destruct s.
    + exists "-"%char, (String c t). split; [reflexivity | tauto].
    + exists c, t. split; [reflexivity | now left].
Qed.

Lemma toString_not_Error (x : number) : toString x <> "Error".
Proof.
  destruct (toString_head x) as (c & t & E & H). rewrite E. intros Q.
  injection Q as -> _.
  destruct H as [H|[H|[H|H]]]; discriminate H.
Qed.

(** The error marker comes from a division by zero and from nothing else:
    [calculate] returns "Error" exactly when both operands parse, the
    operation is the division and the current operand is zero. *)
Theorem calculate_Error_iff (S : CalculatorState) :
  calculate S = "Error"
  <-> isNaN (parseFloat (previousValue S)) = false
      /\ operation S = Some op_divide
      /\ is_zero (parseFloat (currentValue S)) = true.
Proof.
  split.
  - unfold calculate.
    destruct (isNaN (parseFloat (previousValue S))) eqn:Np;
      [discriminate|].
    destruct (isNaN (parseFloat (currentValue S))); [discriminate|].
    cbn [orb].
    destruct (operation S) as [op|]; [|discriminate].
    destruct (op =? op_plus); [intros H; now apply toString_not_Error in H|].
    destruct (op =? op_minus); [intros H; now apply toString_not_Error in H|].
    destruct (op =? op_times); [intros H; now apply toString_not_Error in H|].
    destruct (String.eqb_spec op op_divide) as [->|]; [|discriminate].
    destruct (is_zero (parseFloat (currentValue S)));
      [auto | intros H; now apply toString_not_Error in H].
  - intros (Hp & Ho & Hz). now apply calculate_divide_by_zero.
Qed.

Lemma parseFloat_0 : parseFloat "0" = S754_zero false.
Proof. reflexivity. Qed.

Lemma toString_add_zero (x : number) :
  isNaN x = false -> toString (add x (S754_zero false)) = toString x.
Proof. destruct x as [[]|[]| |s m e]; intros H; try reflexivity; discriminate H. Qed.

Lemma toString_sub_zero (x : number) :
  isNaN x = false -> toString (sub x (S754_zero false)) = toString x.
Proof. destruct x as [[]|[]| |s m e]; intros H; try reflexivity; discriminate H. Qed.

Lemma toString_mul_zero (x : number) :
  isNaN x = false ->
  toString (mul x (S754_zero false))
  = match x with S754_infinity _ => "NaN" | _ => "0" end.
Proof. destruct x as [[]|[]| |s m e]; intros H; try reflexivity; discriminate H. Qed.

(** An operator chosen right after another one, while currentValue is
    still "0", evaluates the pending operation on that "0": under + and -
    the left operand keeps its value (printed afresh), under the
    multiplication it becomes "0" ("NaN" for an infinite operand). *)
Theorem operator_chosen_again (S : CalculatorState) (o' : string) :
  previousValue S <> "" ->
  currentValue S = "0" ->
  isNaN (parseFloat (previousValue S)) = false ->
  (operation S = Some op_plus \/ operation S = Some op_minus ->
   calculatorReducer S (CHOOSE_OPERATION o')
   = {| currentValue := "0";
        previousValue := toString (parseFloat (previousValue S));
        operation := Some o'; overwrite := true |})
  /\ (operation S = Some op_times ->
      calculatorReducer S (CHOOSE_OPERATION o')
      = {| currentValue := "0";
           previousValue :=
             match parseFloat (previousValue S) with
             | S754_infinity _ => "NaN"
             | _ => "0"
             end;
           operation := Some o'; overwrite := true |}).
Proof.
  intros Hp Hc Hn. apply string_eqb_false in Hp.
  assert (E : forall o, operation S = Some o -> truthy (Some o) = true ->
                calculatorReducer S (CHOOSE_OPERATION o')
                = {| currentValue := "0"; previousValue := calculate S;
                     operation := Some o'; overwrite := true |}).
  { intros o Ho Ht. unfold calculatorReducer.
    now rewrite Hp, Ho, Ht, andb_false_r. }
  assert (C : forall o, operation S = Some o ->
                calculate S
                = if o =? op_plus
                  then toString (add (parseFloat (previousValue S)) (S754_zero false))
                  else if o =? op_minus
                  then toString (sub (parseFloat (previousValue S)) (S754_zero false))
                  else if o =? op_times
                  then toString (mul (parseFloat (previousValue S)) (S754_zero false))
                  else if o =? op_divide then "Error" else "0").
  { intros o Ho. unfold calculate. rewrite Hn, Hc, Ho, parseFloat_0.
    reflexivity. }
  split.
  - intros [Ho|Ho]; rewrite (E _ Ho eq_refl), (C _ Ho); cbn.
    + now rewrite toString_add_zero.
    + now rewrite toString_sub_zero.
  - intros Ho. rewrite (E _ Ho eq_refl), (C _ Ho). cbn.
    now rewrite toString_mul_zero.
Qed.

Lemma operator_chosen_again_witness :
  calculatorReducer
    (run [ADD_DIGIT "5"; CHOOSE_OPERATION op_times]) (CHOOSE_OPERATION op_plus)
  = {| currentValue := "0"; previousValue := "0";
       operation := Some op_plus; overwrite := true |}.
Proof.
  refine (proj2 (operator_chosen_again
                   (run [ADD_DIGIT "5"; CHOOSE_OPERATION op_times])
                   op_plus _ _ _) _); try reflexivity.
  discriminate.
Defined.

Lemma calculate_Error_iff_witness :
  calculate (operands op_divide "7" "0.0") = "Error".
Proof.
  apply (proj2 (calculate_Error_iff (operands op_divide "7" "0.0"))).
  repeat split.
Defined.

(** ** Operands that do not parse *)

Lemma shr_1_nonneg (mrs : shr_record) :
  (0 <= shr_m mrs)%Z -> (0 <= shr_m (shr_1 mrs))%Z.
Proof.
  destruct mrs as [m r s]. cbn [shr_m].
  destruct m as [|[p|p|]|p]; cbn; intros H; lia.
Qed.

Lemma iter_pos_shr_1_nonneg (p : positive) :
  forall mrs, (0 <= shr_m mrs)%Z -> (0 <= shr_m (iter_pos shr_1 p mrs))%Z.
Proof.
  induction p as [p IH|p IH|]; intros mrs H; cbn [iter_pos].
  - apply IH, IH, shr_1_nonneg, H.
  - apply IH, IH, H.
  - apply shr_1_nonneg, H.
Qed.

Lemma shr_fexp_nonneg (m e : Z) (l : location) :
  (0 <= m)%Z -> (0 <= shr_m (fst (shr_fexp prec emax m e l)))%Z.
Proof.
  intros H. unfold shr_fexp, shr.
  assert (H0 : (0 <= shr_m (shr_record_of_loc m l))%Z)
    by (destruct l as [|[]]; exact H).
  destruct (fexp prec emax (Zdigits2 m + e) - e)%Z; cbn [fst];
    [exact H0 | now apply iter_pos_shr_1_nonneg | exact H0].
Qed.

Lemma round_nearest_even_nonneg (m : Z) (l : location) :
  (0 <= m)%Z -> (0 <= round_nearest_even m l)%Z.
Proof.
  intros H. destruct l as [|[]]; cbn; try lia.
  destruct (Z.even m); lia.
Qed.

Lemma binary_round_aux_not_NaN (sx : bool) (mx ex : Z) (lx : location) :
  (0 <= mx)%Z -> isNaN (binary_round_aux prec emax sx mx ex lx) = false.
Proof.
  intros H. unfold binary_round_aux.
  pose proof (shr_fexp_nonneg mx ex lx H) as H1.
  destruct (shr_fexp prec emax mx ex lx) as [mrs' e']. cbn [fst] in H1.
  pose proof (shr_fexp_nonneg _ e' loc_Exact
                (round_nearest_even_nonneg _ (loc_of_shr_record mrs') H1)) as H2.
  destruct (shr_fexp prec emax _ e' loc_Exact) as [mrs'' e'']. cbn [fst] in H2.
  destruct (shr_m mrs'') as [|m|m]; [reflexivity | | lia].
  destruct (e'' <=? emax - prec)%Z; reflexivity.
Qed.

Lemma binary_round_not_NaN (sx : bool) (m : positive) (e : Z) :
  isNaN (binary_round prec emax sx m e) = false.
Proof.
  unfold binary_round.
  destruct (shl_align m e _) as [mz ez].
  apply binary_round_aux_not_NaN. lia.
Qed.

Lemma round_decimal_not_NaN (m : positive) (e : Z) :
  isNaN (round_decimal m e) = false.
Proof.
  unfold round_decimal. destruct (0 <=? e)%Z eqn:E.
  - unfold binary_normalize.
    destruct (Z.pos m * 10 ^ e)%Z;
      [reflexivity | apply binary_round_not_NaN | apply binary_round_not_NaN].
  - unfold SFdiv_core_binary.
    set (m' := match _ with Z0 => _ | Zpos _ => _ | Zneg _ => _ end).
    assert (Hm' : (0 <= m')%Z).
    { subst m'. destruct (_ - _ - _)%Z; try lia.
      apply Z.shiftl_nonneg. lia. }
    assert (Hd : (0 < 10 ^ (- e))%Z).
    { apply Z.leb_gt in E. apply Z.pow_pos_nonneg; lia. }
    pose proof (Z.div_pos m' _ Hm' Hd) as Hq. unfold Z.div in Hq.
    destruct (Z.div_eucl m' (10 ^ (- e))) as [q r].
    now apply binary_round_aux_not_NaN.
Qed.

Lemma isNaN_SFopp (x : number) : isNaN (SFopp x) = isNaN x.
Proof. destruct x; reflexivity. Qed.

(** [parseFloat] gives NaN exactly when no prefix of the trimmed string
    is a literal. *)
Lemma parseFloat_NaN_iff (s : string) :
  isNaN (parseFloat s) = true
  <-> scan_StrDecimalLiteral (trim_start s) = ScanNone.
Proof.
  unfold parseFloat.
  destruct (scan_StrDecimalLiteral (trim_start s)) as [|neg r|neg ip fp ex r].
  - split; reflexivity.
  - split; discriminate.
  - split; [|discriminate].
    destruct (digits_value 0 (ip ++ fp)) as [|m|m]; try discriminate.
    destruct neg; [rewrite isNaN_SFopp|]; rewrite round_decimal_not_NaN;
      discriminate.
Qed.

Lemma white_space_char (c : ascii) :
  is_white_space c = true ->
  is_digit c = false /\ Ascii.eqb c "-" = false /\ Ascii.eqb c "+" = false
  /\ Ascii.eqb c "." = false /\ Ascii.eqb c "I" = false.
Proof.
  destruct c as [[] [] [] [] [] [] [] []]; intros H;
    solve [discriminate H | repeat split].
Qed.

Lemma numeric_literal_trimmed (s : string) :
  numeric_literal s = true -> trim_start s = s.
Proof.
  destruct s as [|c t]; [reflexivity|].
  cbn [trim_start]. destruct (is_white_space c) eqn:W; [|reflexivity].
  destruct (white_space_char c W) as (Hd & Hm & Hp & Hpt & HI).
  unfold numeric_literal, scan_StrDecimalLiteral, scan_sign.
  rewrite Hm, Hp. unfold scan_unsigned. cbn [starts_with]. rewrite HI.
  cbn [andb span_digits]. rewrite Hd. unfold scan_fraction. rewrite Hpt.
  discriminate.
Qed.

Lemma numeric_literal_parses (s : string) :
  numeric_literal s = true -> isNaN (parseFloat s) = false.
Proof.
  intros H. destruct (isNaN (parseFloat s)) eqn:N; [|reflexivity].
  apply parseFloat_NaN_iff in N.
  rewrite (numeric_literal_trimmed s H) in N.
  unfold numeric_literal in H. rewrite N in H. discriminate H.
Qed.

Lemma display_value_NaN_iff (v : string) :
  display_value v = true ->
  (isNaN (parseFloat v) = true <-> v = "." \/ v = "Error" \/ v = "NaN").
Proof.
  unfold display_value. intros H.
  destruct (numeric_literal v) eqn:L.
  - rewrite (numeric_literal_parses v L). split; [discriminate|].
    intros [->|[->| ->]]; discriminate L.
  - cbn [orb] in H.
    destruct (String.eqb_spec v ".") as [->|]; [split; [tauto | reflexivity]|].
    destruct (String.eqb_spec v "Error") as [->|]; [split; [tauto | reflexivity]|].
    destruct (String.eqb_spec v "NaN") as [->|]; [split; [tauto | reflexivity]|].
    cbn [orb] in H.
    destruct (String.eqb_spec v "Infinity") as [->|];
      [split; [discriminate | intros [Q|[Q|Q]]; discriminate Q]|].
    destruct (String.eqb_spec v "-Infinity") as [->|];
      [split; [discriminate | intros [Q|[Q|Q]]; discriminate Q]|].
    discriminate H.
Qed.

(** When [calculate] is called in a session (a left operand is held), its
    fallback for operands that do not parse is taken exactly when
    previousValue or currentValue is one of ".", "Error", "NaN"; the
    result is then "0". *)
Theorem fallback_in_sessions (S : CalculatorState) :
  reachable S ->
  previousValue S <> "" ->
  (isNaN (parseFloat (previousValue S)) || isNaN (parseFloat (currentValue S))
   = true
   <-> In (previousValue S) ["."; "Error"; "NaN"]
       \/ In (currentValue S) ["."; "Error"; "NaN"])
  /\ (In (previousValue S) ["."; "Error"; "NaN"]
      \/ In (currentValue S) ["."; "Error"; "NaN"] ->
      calculate S = "0").
Proof.
  intros HR Hp.
  destruct (display_invariant_reachable S HR) as (Hcur & Hprev & _).
  destruct Hprev as [Hprev|Hprev]; [contradiction|].
  pose proof (display_value_NaN_iff _ Hcur) as Ic.
  pose proof (display_value_NaN_iff _ Hprev) as Ip.
  assert (Hin : forall v, In v ["."; "Error"; "NaN"]
                          <-> v = "." \/ v = "Error" \/ v = "NaN").
  { intros v. cbn [In]. intuition congruence. }
  assert (Hiff : isNaN (parseFloat (previousValue S))
                 || isNaN (parseFloat (currentValue S)) = true
                 <-> In (previousValue S) ["."; "Error"; "NaN"]
                     \/ In (currentValue S) ["."; "Error"; "NaN"]).
  { rewrite orb_true_iff, !Hin. tauto. }
  split; [exact Hiff|].
  intros H. apply calculate_NaN. apply orb_true_iff. now apply Hiff.
Qed.

Lemma fallback_in_sessions_witness :
  calculate
    (run [ADD_DIGIT "5"; CHOOSE_OPERATION op_divide; ADD_DIGIT "0";
          ADD_DIGIT "."; EVALUATE; CHOOSE_OPERATION op_plus; ADD_DIGIT "3"])
  = "0".
Proof.
  refine (proj2 (fallback_in_sessions
                   (run [ADD_DIGIT "5"; CHOOSE_OPERATION op_divide;
                         ADD_DIGIT "0"; ADD_DIGIT "."; EVALUATE;
                         CHOOSE_OPERATION op_plus; ADD_DIGIT "3"]) _ _) _).
  - repeat (apply reachable_step; [|reflexivity]). apply reachable_init.
  - vm_compute. discriminate.
  - left. vm_compute. tauto.
Defined.

(** * The keyboard and the buttons *)

Lemma char_between_0_and_9 (c : ascii) :
  (is_digit c = true /\ Ascii.compare "0" c <> Gt
   /\ ((c = "9"%char /\ Ascii.compare c "9" = Eq)
       \/ (c <> "9"%char /\ Ascii.compare c "9" = Lt)))
  \/ (is_digit c = false
      /\ (Ascii.compare "0" c = Gt \/ Ascii.compare c "9" = Gt)).
Proof.
  destruct c as [[] [] [] [] [] [] [] []];
    solve [ right; split; [reflexivity | (left; reflexivity) || (right; reflexivity)]
          | left; split; [reflexivity|]; split; [discriminate|];
            ((left; split; reflexivity) || (right; split; [discriminate | reflexivity])) ].
Qed.

Lemma compare_empty_l (t : string) : String.compare "" t <> Gt.
Proof. destruct t; discriminate. Qed.

Lemma compare_empty_r (t : string) :
  String.compare t "" = Eq /\ t = "" \/ String.compare t "" = Gt /\ t <> "".
Proof. destruct t; [left | right]; split; try reflexivity; discriminate. Qed.

(** [key >= '0' && key <= '9'] holds of the keys that start with one of
    0 to 8, and of "9". *)
Lemma between_0_and_9 (key : string) :
  String.leb "0" key && String.leb key "9" = true
  <-> exists c t, key = String c t /\ is_digit c = true
                  /\ (c = "9"%char -> t = "").
Proof.
  destruct key as [|c t].
  - split; [discriminate | intros (c & t & E & _); discriminate E].
  - unfold String.leb. cbn [String.compare].
    pose proof (compare_empty_l t) as Hl.
    destruct (char_between_0_and_9 c)
      as [(Hd & H0 & [[-> H9]|[Hn H9]]) | (Hd & [H0|H9])].
    + cbn [Ascii.compare] in *. rewrite H9.
      destruct (compare_empty_r t) as [[E ->]|[E Ht]].
      * split; [|reflexivity]. intros _. now exists "9"%char, "".
      * rewrite E. split; [rewrite andb_false_r; discriminate|].
        intros (c & t' & Q & _ & Q9). injection Q as <- <-.
        now specialize (Q9 eq_refl).
    + rewrite H9, andb_true_r. split.
      * intros _. exists c, t. repeat split; [exact Hd | contradiction].
      * intros _. destruct (Ascii.compare "0" c);
          [destruct t; reflexivity | reflexivity | congruence].
    + rewrite H0. split; [discriminate|].
      intros (c' & t' & Q & Hd' & _). injection Q as <- <-. congruence.
    + rewrite H9, andb_false_r. split; [discriminate|].
      intros (c' & t' & Q & Hd' & _). injection Q as <- <-. congruence.
Qed.

Ltac key_branches :=
  repeat match goal with
         | |- context [if ?k =? ?lit then _ else _] =>
             destruct (String.eqb_spec k lit)
         | |- context [if ?b then _ else _] => destruct b eqn:?
         end.

(** The digit branch of the keyboard handler passes the whole key on as
    the digit: a key dispatches ADD_DIGIT with itself as payload exactly
    when it starts with one of 0 to 8 (whatever follows), or is "9", or is
    the point. *)
Theorem handleKeyDown_digit (key : string) :
  handleKeyDown key = (Some (ADD_DIGIT key), false)
  <-> (exists c t, key = String c t /\ is_digit c = true
                   /\ (c = "9"%char -> t = ""))
      \/ key = ".".
Proof.
  unfold handleKeyDown.
  destruct (String.leb "0" key && String.leb key "9") eqn:R.
  - split; [|reflexivity]. intros _. left. now apply between_0_and_9.
  - assert (N : ~ exists c t, key = String c t /\ is_digit c = true
                              /\ (c = "9"%char -> t = "")).
    { intros H. apply between_0_and_9 in H. congruence. }
    destruct (String.eqb_spec key ".") as [->|Hp].
    + split; [now right | reflexivity].
    + split.
      * key_branches; discriminate.
      * intros [H|H]; contradiction.
Qed.

Lemma handleKeyDown_digit_witness :
  handleKeyDown "7" = (Some (ADD_DIGIT "7"), false)
  /\ handleKeyDown "1x" = (Some (ADD_DIGIT "1x"), false).
Proof.
  split.
  - apply (proj2 (handleKeyDown_digit "7")). left.
    exists "7"%char, "". repeat split.
  - apply (proj2 (handleKeyDown_digit "1x")). left.
    exists "1"%char, "x". repeat split. discriminate.
Defined.

Lemma digit_key_cases (d : string) :
  digit_key d = true ->
  In d ["0"; "1"; "2"; "3"; "4"; "5"; "6"; "7"; "8"; "9"; "."].
Proof.
  destruct d as [|c [|c' d']]; try discriminate.
  destruct c as [[] [] [] [] [] [] [] []]; intros H;
    solve [ discriminate H
          | cbn [In]; repeat (first [left; reflexivity | right]) ].
Qed.

Lemma operator_key_cases (o : string) :
  operator_key o = true ->
  o = op_plus \/ o = op_minus \/ o = op_times \/ o = op_divide.
Proof.
  unfold operator_key. intros H.
  repeat (apply orb_true_iff in H; destruct H as [H|H]);
    apply string_eqb_true in H; tauto.
Qed.

(** The buttons dispatch the events of the interface, all of them and
    nothing else: an action is the [onClick] of a button exactly when it is
    Clear, Delete, Evaluate, a digit or point, or one of the four
    operators. *)
Theorem buttons_are_the_events (a : CalculatorAction) :
  In a buttons <-> ui_event a = true.
Proof.
  split.
  - unfold buttons. cbn [In]. intros H.
    repeat (destruct H as [<-|H]; [reflexivity|]). contradiction.
  - destruct a as [d|o| | | |]; cbn [ui_event]; intros H.
    + apply digit_key_cases in H. cbn [In] in H.
      repeat (destruct H as [<-|H];
              [cbn [In buttons]; repeat (first [left; reflexivity | right])|]).
      contradiction.
    + apply operator_key_cases in H.
      destruct H as [->|[->|[->| ->]]];
        cbn [In buttons]; repeat (first [left; reflexivity | right]).
    + cbn; tauto.
    + cbn; tauto.
    + cbn [In buttons]; repeat (first [left; reflexivity | right]).
    + discriminate H.
Qed.

Lemma buttons_are_the_events_witness :
  In (CHOOSE_OPERATION op_times) buttons.
Proof.
  apply (proj2 (buttons_are_the_events (CHOOSE_OPERATION op_times))).
  reflexivity.
Defined.

Lemma plain_key_ui_event (key : string) (a : CalculatorAction) :
  plain_key key = true ->
  fst (handleKeyDown key) = Some a ->
  ui_event a = true.
Proof.
  intros Hk. unfold handleKeyDown.
  destruct (String.leb "0" key && String.leb key "9") eqn:R.
  - apply between_0_and_9 in R. destruct R as (c & t & -> & Hd & _).
    cbn [plain_key] in Hk. rewrite Hd in Hk. cbn [negb orb] in Hk.
    apply string_eqb_true in Hk. subst t.
    cbn [fst]. intros E. injection E as <-.
    cbn [ui_event digit_key]. now rewrite Hd.
  - key_branches; cbn [fst]; intros E; try discriminate E;
      injection E as <-; reflexivity.
Qed.

(** The keyboard and the buttons agree: a key of one character, or one
    whose name does not start with a digit, dispatches nothing or the
    action of a button, and the action of every button is dispatched by
    such a key. *)
Theorem keyboard_matches_buttons :
  (forall key a,
      plain_key key = true ->
      fst (handleKeyDown key) = Some a ->
      In a buttons)
  /\ (forall a,
         In a buttons ->
         plain_key (key_for a) = true
         /\ fst (handleKeyDown (key_for a)) = Some a).
Proof.
  split.
  - intros key a Hk E. apply buttons_are_the_events.
    exact (plain_key_ui_event key a Hk E).
  - unfold buttons. cbn [In]. intros a H.
    repeat (destruct H as [<-|H]; [split; reflexivity|]). contradiction.
Qed.

Lemma keyboard_matches_buttons_witness :
  In (CHOOSE_OPERATION op_divide) buttons
  /\ fst (handleKeyDown "/") = Some (CHOOSE_OPERATION op_divide).
Proof.
  split.
  - apply (proj1 keyboard_matches_buttons "/"); reflexivity.
  - apply (proj2 keyboard_matches_buttons (CHOOSE_OPERATION op_divide)).
    cbn [In buttons]. repeat (first [left; reflexivity | right]).
Defined.

Lemma press_keys_reachable (keys : list string) :
  Forall (fun key => plain_key key = true) keys ->
  forall s, reachable s -> reachable (fold_left press_key keys s).
Proof.
  induction 1 as [|key keys Hk _ IH]; intros s Hs; [exact Hs|].
  cbn [fold_left]. apply IH. unfold press_key.
  destruct (fst (handleKeyDown key)) as [a|] eqn:E; [|exact Hs].
  apply reachable_step; [exact Hs|].
  exact (plain_key_ui_event key a Hk E).
Qed.

(** Whatever is typed with keys of one character and keys whose names do
    not start with a digit, the state is a reachable one, so the display
    holds a display value, and digits and at most one point outside
    overwrite mode. *)
Theorem keyboard_sessions (keys : list string) :
  Forall (fun key => plain_key key = true) keys ->
  reachable (type_keys keys)
  /\ display_value (currentValue (type_keys keys)) = true
  /\ (overwrite (type_keys keys) = false ->
      entry (currentValue (type_keys keys)) = true).
Proof.
  intros H.
  assert (HR : reachable (type_keys keys))
    by (apply press_keys_reachable; [exact H | apply reachable_init]).
  split; [exact HR|].
  destruct (display_invariant_reachable _ HR) as (Hc & _ & He).
  split; assumption.
Qed.

Lemma keyboard_sessions_witness :
  reachable (type_keys ["1"; "2"; "*"; "F5"; "3"; "Enter"])
  /\ display_value (currentValue (type_keys ["1"; "2"; "*"; "F5"; "3"; "Enter"]))
     = true.
Proof.
  destruct (keyboard_sessions ["1"; "2"; "*"; "F5"; "3"; "Enter"]) as (H1 & H2 & _).
  - repeat constructor.
  - split; assumption.
Defined.

(** A key that starts with a digit and goes on is not such a key: its
    whole name lands in the display. *)
Example key_with_digit_prefix :
  currentValue (type_keys ["1x"]) = "1x"
  /\ display_value (currentValue (type_keys ["1x"])) = false.
Proof. split; reflexivity. Qed.

(** * Arithmetic on small integers *)

Lemma exact_on_below_50 :
  forallb (fun a => forallb (exact_on a) (seq 0 50)) (seq 0 50) = true.
Proof. vm_compute. reflexivity. Qed.

(** On the integers below 50 the four operations are exact: the sum, the
    product and the difference of the numerals of [a] and [b] are the
    numerals of [a + b], [a * b] and [a - b] (with a minus sign when
    [a < b]), and [a * b] divided by [b] is [a]. *)
Theorem small_integer_arithmetic (a b : nat) :
  (a < 50)%nat -> (b < 50)%nat ->
  calculate (operands op_plus (decimal a) (decimal b)) = decimal (a + b)
  /\ calculate (operands op_times (decimal a) (decimal b)) = decimal (a * b)
  /\ calculate (operands op_minus (decimal a) (decimal b))
     = (if (a <? b)%nat then "-" ++ decimal (b - a) else decimal (a - b))
  /\ (b <> 0%nat ->
      calculate (operands op_divide (decimal (a * b)) (decimal b))
      = decimal a).
Proof.
  intros Ha Hb.
  pose proof exact_on_below_50 as H.
  rewrite forallb_forall in H.
  specialize (H a (proj2 (in_seq 50 0 a) (conj (Nat.le_0_l a) Ha))).
  rewrite forallb_forall in H.
  specialize (H b (proj2 (in_seq 50 0 b) (conj (Nat.le_0_l b) Hb))).
  unfold exact_on in H.
  apply andb_true_iff in H as [H Hdiv].
  apply andb_true_iff in H as [H Hsub].
  apply andb_true_iff in H as [Hadd Hmul].
  apply string_eqb_true in Hadd, Hmul, Hsub.
  repeat split; try assumption.
  intros Hb0. apply orb_true_iff in Hdiv as [Hz|Hdiv].
  - apply Nat.eqb_eq in Hz. contradiction.
  - now apply string_eqb_true.
Qed.

Lemma small_integer_arithmetic_witness :
  (12 < 50)%nat /\ (12 < 50)%nat
  /\ calculate (operands op_times (decimal 12) (decimal 12))
     = decimal (12 * 12).
Proof.
  assert (H : (12 < 50)%nat) by lia.
  split; [exact H|]. split; [exact H|].
  exact (proj1 (proj2 (small_integer_arithmetic 12 12 H H))).
Defined.

Example decimal_144 : decimal (12 * 12) = "144".
Proof. reflexivity. Qed.
